(** * Irish-Tunes: the thesession.org scraper [session_tunes.py]

    A shallow embedding of [session_tunes.py] and the properties of its
    fetcher, field extractors, batch driver and persistence merge.

    Modelling conventions.
    - A Python [str] is a [string]: a sequence of characters with code
      points below 256.  On that range the regex class [\d] is exactly
      ['0'..'9'] and ASCII case folding is the whole of [re.IGNORECASE].
    - A Python [int] is a [Z].
    - An exception is a value of [exn]; code that may raise returns a
      [result].  [None] is [Datatypes.None] of an [option].
    - [requests.get] is an oracle consulted with the list of URLs requested
      so far; the world records every request, every printed line and the
      heap of list objects, so that aliasing of [library] is visible.
    - The interpreter runs with its defaults: [assert] statements are
      executed (no [-O]) and [int] refuses a literal of more than 4300
      digits.  [str] of an [int] is taken without that limit: the integers
      the program prints are identifiers and lengths of lists. *)

From Stdlib Require Import ZArith List String Ascii Bool Lia DecimalString DecimalPos
  Sorted.
Import ListNotations.

Local Open Scope string_scope.
Local Open Scope Z_scope.

(** ** Exceptions and results *)

Inductive exn : Type :=
| HTTPError
| ConnectionError
| Timeout
| UnboundLocalError
| AssertionError (msg : string)
| AttributeError
| TypeError
| ValueError
| KeyError (key : string)
| ParserRejectedMarkup.

Inductive result (A : Type) : Type :=
| Ok (a : A)
| Raise (e : exn).

Arguments Ok {A} a.
Arguments Raise {A} e.

Definition rbind {A B : Type} (r : result A) (k : A -> result B) : result B :=
  match r with
  | Ok a => k a
  | Raise e => Raise e
  end.

Declare Scope result_scope.
Delimit Scope result_scope with result.
Notation "x <~ r ;; k" := (rbind r (fun x => k))
  (at level 61, r at next level, right associativity) : result_scope.

(** ** Python [str] primitives *)

Module PyStr.

Fixpoint mem (c : ascii) (chars : string) : bool :=
  match chars with
  | EmptyString => false
  | String d r => Ascii.eqb c d || mem c r
  end.

Fixpoint take_while (p : ascii -> bool) (s : string) : string :=
  match s with
  | EmptyString => EmptyString
  | String c r => if p c then String c (take_while p r) else EmptyString
  end.

Fixpoint drop_while (p : ascii -> bool) (s : string) : string :=
  match s with
  | EmptyString => EmptyString
  | String c r => if p c then drop_while p r else s
  end.

Fixpoint drop (n : nat) (s : string) : string :=
  match n, s with
  | O, _ => s
  | S _, EmptyString => EmptyString
  | S k, String _ r => drop k r
  end.

Fixpoint forallb (p : ascii -> bool) (s : string) : bool :=
  match s with
  | EmptyString => true
  | String c r => p c && forallb p r
  end.

Fixpoint existsb (p : ascii -> bool) (s : string) : bool :=
  match s with
  | EmptyString => false
  | String c r => p c || existsb p r
  end.

Definition is_empty (s : string) : bool :=
  match s with
  | EmptyString => true
  | String _ _ => false
  end.

(** [s.rstrip(chars)]: drop every trailing character that occurs in
    [chars]; [chars] is a set of characters, not a suffix. *)
Fixpoint rstrip (s chars : string) : string :=
  match s with
  | EmptyString => EmptyString
  | String c r =>
      match rstrip r chars with
      | EmptyString => if mem c chars then EmptyString else String c EmptyString
      | String d r' => String c (String d r')
      end
  end.

(** [new.join] of the characters of [s] with [new] at both ends: what
    [s.replace('', new)] returns. *)
Fixpoint interleave (new s : string) : string :=
  new ++ match s with
         | EmptyString => EmptyString
         | String c r => String c (interleave new r)
         end.

(** Left-to-right scan of [s.replace(old, new)] for a non-empty [old];
    [skip] counts the characters of the current match still to be
    consumed. *)
Fixpoint replace_scan (old new : string) (skip : nat) (s : string) : string :=
  match s with
  | EmptyString => EmptyString
  | String c r =>
      match skip with
      | S k => replace_scan old new k r
      | O =>
          if prefix old s
          then new ++ replace_scan old new (Nat.pred (String.length old)) r
          else String c (replace_scan old new O r)
      end
  end.

(** [s.replace(old, new)]: every non-overlapping occurrence, leftmost
    first. *)
Definition replace (s old new : string) : string :=
  match old with
  | EmptyString => interleave new s
  | String _ _ => replace_scan old new O s
  end.

(** [str(n)] for an [int]. *)
Definition str (n : Z) : string := NilZero.string_of_int (Z.to_int n).

Definition is_digit (c : ascii) : bool :=
  let n := nat_of_ascii c in (48 <=? n)%nat && (n <=? 57)%nat.

Definition digit_value (c : ascii) : Z := Z.of_nat (nat_of_ascii c) - 48.

(** The characters [int] skips at both ends of its argument: the ASCII
    white space and, above it, the code points 133 and 160. *)
Definition is_space (c : ascii) : bool :=
  let n := nat_of_ascii c in
  ((9 <=? n)%nat && (n <=? 13)%nat) || (n =? 32)%nat
  || (n =? 133)%nat || (n =? 160)%nat.

(** The digits of a decimal literal, single underscores allowed between
    digits.  Returns the value, the number of digits read and the unread
    rest. *)
Fixpoint scan_digits (acc : Z) (digits : nat) (seen prev_us : bool)
  (s : string) : option (Z * nat * string) :=
  match s with
  | EmptyString => if seen && negb prev_us then Some (acc, digits, s) else None
  | String c r =>
      if is_digit c
      then scan_digits (acc * 10 + digit_value c) (S digits) true false r
      else if Ascii.eqb c "_" then
             if seen && negb prev_us then scan_digits acc digits seen true r
             else None
           else if seen && negb prev_us then Some (acc, digits, s) else None
  end.

(** [sys.get_int_max_str_digits()] of an interpreter started with its
    defaults. *)
Definition int_max_str_digits : Z := 4300.

(** [int(s)] in base ten; a literal of more digits than the limit raises
    [ValueError] like a malformed one. *)
Definition int (s : string) : result Z :=
  let s1 := drop_while is_space s in
  let '(sign, s2) :=
    match s1 with
    | String "+" r => (1, r)
    | String "-" r => (-1, r)
    | _ => (1, s1)
    end in
  match scan_digits 0 0 false false s2 with
  | Some (v, digits, rest) =>
      if int_max_str_digits <? Z.of_nat digits then Raise ValueError
      else if is_empty (drop_while is_space rest) then Ok (sign * v)
           else Raise ValueError
  | None => Raise ValueError
  end.

Definition lower (c : ascii) : ascii :=
  let n := nat_of_ascii c in
  if (65 <=? n)%nat && (n <=? 90)%nat then ascii_of_nat (n + 32) else c.

(** [lit] matches at the start of [s], ignoring ASCII case. *)
Fixpoint ci_prefix (lit s : string) : bool :=
  match lit, s with
  | EmptyString, _ => true
  | String _ _, EmptyString => false
  | String a l, String b r => Ascii.eqb (lower a) (lower b) && ci_prefix l r
  end.

End PyStr.

(** ** The count parser *)

(** The regex class [[\d,]]. *)
Definition count_class (c : ascii) : bool :=
  PyStr.is_digit c || Ascii.eqb c ",".

(** [re.search('[\d,]+', text)]: the leftmost, longest run of class
    characters, [None] when there is none. *)
Fixpoint re_search_count (text : string) : option string :=
  match text with
  | EmptyString => None
  | String c r =>
      if count_class c then Some (PyStr.take_while count_class text)
      else re_search_count r
  end.

(** [m.group()] on the result of [re.search]. *)
Definition group (m : option string) : result string :=
  match m with
  | Some g => Ok g
  | None => Raise AttributeError
  end.

Definition parse_count (text : string) : result (option Z) :=
  match (num_string <~ group (re_search_count text) ;;
         PyStr.int (PyStr.replace num_string "," ""))%result with
  | Ok num => Ok (Some num)
  | Raise ValueError => Ok None
  | Raise AttributeError => Ok None
  | Raise e => Raise e
  end.


(** ** The parsed document

    What [BeautifulSoup(r.text, 'html.parser')] builds: a tree of tags and
    text.  [class_] is the multi-valued [class] attribute, [attrs] holds the
    single-valued attributes.  The soup object itself is the tag named
    [[document]] at the root. *)

#[warnings="-register-all"]
Inductive Node : Type :=
| NavigableString (s : string)
| Tag (name : string) (class_ : list string) (attrs : list (string * string))
      (contents : list Node).

Module Bs4.

(** Every node below [n], in document order. *)
Fixpoint descendants (n : Node) : list Node :=
  match n with
  | NavigableString _ => []
  | Tag _ _ _ contents => flat_map (fun c => c :: descendants c) contents
  end.

(** [n.text]: the text below [n], concatenated. *)
Fixpoint get_text (n : Node) : string :=
  match n with
  | NavigableString s => s
  | Tag _ _ _ contents => fold_right (fun c acc => get_text c ++ acc) "" contents
  end.

(** [n.string]: the text of a node with a single line of descent down to
    one string. *)
Fixpoint string_ (n : Node) : option string :=
  match n with
  | NavigableString s => Some s
  | Tag _ _ _ [c] => string_ c
  | Tag _ _ _ _ => None
  end.

Definition named (name : string) (n : Node) : bool :=
  match n with
  | NavigableString _ => false
  | Tag nm _ _ _ => String.eqb nm name
  end.

(** The criterion [class_=cls] (or [attrs={'class': cls}]) for a [cls]
    without spaces: one of the tag's classes is [cls]. *)
Definition has_class (cls : string) (n : Node) : bool :=
  match n with
  | NavigableString _ => false
  | Tag _ classes _ _ => List.existsb (String.eqb cls) classes
  end.

(** The criterion [string=regex]: [n.string] exists and the regex is found
    in it. *)
Definition string_matches (search : string -> bool) (n : Node) : bool :=
  match string_ n with
  | Some s => search s
  | None => false
  end.

Definition find_all (crit : Node -> bool) (n : Node) : list Node :=
  filter crit (descendants n).

Definition find (crit : Node -> bool) (n : Node) : option Node :=
  hd_error (find_all crit n).

(** [tag[key]]: the attribute of a tag; a string indexed by a key raises
    [TypeError]. *)
Definition getitem (tag : Node) (key : string) : result string :=
  match tag with
  | NavigableString _ => Raise TypeError
  | Tag _ _ attrs _ =>
      match List.find (fun kv => String.eqb (fst kv) key) attrs with
      | Some kv => Ok (snd kv)
      | None => Raise (KeyError key)
      end
  end.

(** Method calls on the value a [find] returned: on [None] the attribute
    lookup raises [AttributeError]. *)
Definition find_on (obj : option Node) (crit : Node -> bool)
  : result (option Node) :=
  match obj with
  | Some n => Ok (find crit n)
  | None => Raise AttributeError
  end.

Definition findAll_on (obj : option Node) (crit : Node -> bool)
  : result (list Node) :=
  match obj with
  | Some n => Ok (find_all crit n)
  | None => Raise AttributeError
  end.

Definition text_of (obj : option Node) : result string :=
  match obj with
  | Some n => Ok (get_text n)
  | None => Raise AttributeError
  end.

End Bs4.

(** A list comprehension whose element expression may raise: elements are
    evaluated left to right and the first exception ends it. *)
Fixpoint comprehension {A B : Type} (f : A -> result B) (l : list A)
  : result (list B) :=
  match l with
  | [] => Ok []
  | x :: r =>
      (y <~ f x ;; ys <~ comprehension f r ;; Ok (y :: ys))%result
  end.

(** A [try] block with a bare [except:] that supplies a default. *)
Definition try_default {A : Type} (body : result A) (default : A) : A :=
  match body with
  | Ok a => a
  | Raise _ => default
  end.

(** ** Field extractors *)

Definition LF : string := String (ascii_of_nat 10) EmptyString.

Definition parse_h1 (soup_obj : Node) : string * string :=
  match Ok (Bs4.find (Bs4.named "h1") soup_obj) with
  | Raise _ => ("H1 Error", "H1 Error")
  | Ok h1 =>
      let tune_type :=
        try_default
          (a <~ Bs4.find_on h1 (Bs4.named "a") ;; Bs4.text_of a)%result
          "Error" in
      let tune_name :=
        try_default
          (text <~ Bs4.text_of h1 ;;
           Ok (PyStr.rstrip (PyStr.rstrip text tune_type) " "))%result
          "Error" in
      (tune_type, tune_name)
  end.

(** [re.compile('[\d,]+ other tune collections', re.IGNORECASE).search]
    and [re.compile('[\d,] tune sets', re.IGNORECASE).search]: a class
    character directly followed by the literal. *)
Fixpoint search_class_then (lit s : string) : bool :=
  match s with
  | EmptyString => false
  | String c r => (count_class c && PyStr.ci_prefix lit r) || search_class_then lit r
  end.

(** [re.compile('has been added to [\d,]+ tunebooks', re.IGNORECASE)]
    matched at the start of [s]. *)
Definition tune_book_at (s : string) : bool :=
  let lead := "has been added to " in
  PyStr.ci_prefix lead s
  && (let rest := PyStr.drop (String.length lead) s in
      let run := PyStr.take_while count_class rest in
      negb (PyStr.is_empty run)
      && PyStr.ci_prefix " tunebooks" (PyStr.drop (String.length run) rest)).

Fixpoint search_tune_book (s : string) : bool :=
  tune_book_at s
  || match s with
     | EmptyString => false
     | String _ r => search_tune_book r
     end.

Definition parse_paragraphs (soup_obj : Node)
  : string * option Z * option Z * option Z :=
  let aliases :=
    try_default
      (text <~ Bs4.text_of
                 (Bs4.find (fun n => Bs4.named "p" n && Bs4.has_class "info" n)
                           soup_obj) ;;
       Ok (PyStr.replace text ("Also known as" ++ LF) ""))%result
      "" in
  let collections :=
    try_default
      (collections_text <~
         Bs4.text_of
           (Bs4.find (fun n => Bs4.named "a" n
                               && Bs4.string_matches
                                    (search_class_then " other tune collections") n)
                     soup_obj) ;;
       parse_count collections_text)%result
      (Some 0) in
  let tune_sets :=
    try_default
      (tune_sets_text <~
         Bs4.text_of
           (Bs4.find (fun n => Bs4.named "a" n
                               && Bs4.string_matches
                                    (search_class_then " tune sets") n)
                     soup_obj) ;;
       parse_count tune_sets_text)%result
      (Some 0) in
  let tune_books :=
    try_default
      (tune_book_text <~
         Bs4.text_of
           (Bs4.find (fun n => Bs4.named "p" n
                               && Bs4.string_matches search_tune_book n)
                     soup_obj) ;;
       parse_count tune_book_text)%result
      (Some 0) in
  (aliases, collections, tune_sets, tune_books).

Definition parse_summary (soup_obj : Node) : option Z :=
  match (details <~ Ok (Bs4.find (Bs4.named "details") soup_obj) ;;
         Bs4.find_on details (Bs4.named "summary"))%result with
  | Raise _ => Some 0
  | Ok summary =>
      try_default
        (a <~ Bs4.find_on summary (Bs4.named "a") ;;
         text <~ Bs4.text_of a ;;
         parse_count text)%result
        (Some 0)
  end.

Definition parse_stats (soup_obj : Node) : result (option (list Z)) :=
  match (links <~ Bs4.findAll_on (Bs4.find (Bs4.has_class "stats") soup_obj)
                                 (Bs4.named "a") ;;
         comprehension
           (fun tune => v <~ Bs4.getitem tune "data-tuneid" ;; PyStr.int v)
           links)%result with
  | Ok ids => Ok (Some ids)
  | Raise TypeError => Ok None
  | Raise AttributeError => Ok None
  | Raise e => Raise e
  end.

Definition parse_tabs (soup_obj : Node) : Z :=
  let tabs :=
    try_default
      (Ok (Bs4.find_all (fun n => Bs4.named "div" n
                                  && Bs4.has_class "setting-sheetmusic" n)
                        soup_obj))
      [] in
  Z.of_nat (List.length tabs).

(** One record of the output: the dictionary [strain_soup] builds. *)
Record TuneRecord : Type := mkTune {
  id : Z;
  name : string;
  aliases : string;
  type_ : string;
  set_pairings : option (list Z);
  tabs : Z;
  recordings : option Z;
  collections : option Z;
  sets : option Z;
  books : option Z
}.

Definition strain_soup (soup : Node) (tune_id : Z) : result TuneRecord :=
  let '(tune_type, tune_name) := parse_h1 soup in
  let recordings := parse_summary soup in
  (recorded_with <~ parse_stats soup ;;
   let '(aliases, collections, tune_sets, tune_books) := parse_paragraphs soup in
   let tabs := parse_tabs soup in
   Ok {| id := tune_id;
         name := tune_name;
         aliases := aliases;
         type_ := tune_type;
         set_pairings := recorded_with;
         tabs := tabs;
         recordings := recordings;
         collections := collections;
         sets := tune_sets;
         books := tune_books |})%result.

(** ** The fetcher *)

Record Response : Type := mkResponse {
  status_code : Z;
  text : string
}.

(** The environment of a run: [requests_get log url] is what
    [requests.get(url)] does when [log] lists the URLs requested before, and
    [BeautifulSoup text] is what [BeautifulSoup(text, 'html.parser')] does:
    the tree it builds, or the exception it raises on markup the parser
    rejects. *)
Record Env : Type := mkEnv {
  requests_get : list string -> string -> result Response;
  BeautifulSoup : string -> result Node
}.

(** [r.raise_for_status()]: client and server error codes raise. *)
Definition raise_for_status (r : Response) : result unit :=
  if (400 <=? status_code r) && (status_code r <? 600)
  then Raise HTTPError
  else Ok tt.

(** Reading a local variable that may not have been assigned. *)
Definition read_local {A : Type} (v : option A) : result A :=
  match v with
  | Some a => Ok a
  | None => Raise UnboundLocalError
  end.

Definition tunes_url : string := "https://thesession.org/tunes/".

(** The [while awaiting_response and attempts < 2] loop over its three
    variables; [r] is [None] while unassigned.  [fuel] bounds the number of
    iterations; two are enough (lemma [request_loop_fuel]). *)
Fixpoint request_loop (env : Env) (url : string) (fuel : nat)
  (attempts : Z) (awaiting_response : bool) (r : option Response)
  (log : list string) : option Response * list string :=
  if awaiting_response && (attempts <? 2) then
    match fuel with
    | O => (r, log)
    | S fuel' =>
        match requests_get env log url with
        | Ok resp =>
            request_loop env url fuel' attempts false (Some resp) (log ++ [url])
        | Raise _ =>
            request_loop env url fuel' (attempts + 1) awaiting_response r
                         (log ++ [url])
        end
    end
  else (r, log).

Definition get_soup (env : Env) (tune_id : Z) (log : list string)
  : result Node * list string :=
  let '(r, log') :=
    request_loop env (tunes_url ++ PyStr.str tune_id) 2 0 true None log in
  match (resp <~ read_local r ;; raise_for_status resp)%result with
  | Raise _ => (Raise HTTPError, log')
  | Ok _ =>
      ((resp <~ read_local r ;; BeautifulSoup env (text resp))%result, log')
  end.

(** ** The batch driver *)

(** Objects a caller may pass as [library]: a list of records, or an object
    of another type (of which only the type name matters). *)
Inductive PyObj : Type :=
| PyList (items : list TuneRecord)
| PyOther (type_name : string).

(** The state of a run: the URLs requested, the lines printed, and the heap
    of objects, addressed by position. *)
Record World : Type := mkWorld {
  net : list string;
  out : list string;
  heap : list PyObj
}.

Definition M (A : Type) : Type := World -> result A * World.

Definition ret {A : Type} (a : A) : M A := fun w => (Ok a, w).

Definition raise {A : Type} (e : exn) : M A := fun w => (Raise e, w).

Definition bind {A B : Type} (m : M A) (k : A -> M B) : M B :=
  fun w =>
    match m w with
    | (Ok a, w') => k a w'
    | (Raise e, w') => (Raise e, w')
    end.

Declare Scope monad_scope.
Delimit Scope monad_scope with monad.
Notation "x <- m ;; k" := (bind m (fun x => k))
  (at level 61, m at next level, right associativity) : monad_scope.

Definition lift {A : Type} (r : result A) : M A := fun w => (r, w).

(** [try: m] with the outcome handed to the handler. *)
Definition try_ {A : Type} (m : M A) : M (result A) :=
  fun w => let '(r, w') := m w in (Ok r, w').

Definition fetch (env : Env) (num : Z) : M Node :=
  fun w =>
    let '(r, log') := get_soup env num (net w) in
    (r, {| net := log'; out := out w; heap := heap w |}).

Definition print (line : string) : M unit :=
  fun w => (Ok tt, {| net := net w; out := out w ++ [line]; heap := heap w |}).

(** [[]]: a new list object. *)
Definition new_list : M nat :=
  fun w =>
    (Ok (List.length (heap w)),
     {| net := net w; out := out w; heap := heap w ++ [PyList []] |}).

Fixpoint set_nth {A : Type} (l : list A) (i : nat) (x : A) : list A :=
  match l, i with
  | [], _ => []
  | _ :: r, O => x :: r
  | y :: r, S k => y :: set_nth r k x
  end.

(** [type(obj) == list]. *)
Definition type_is_list (ref : nat) : M bool :=
  fun w =>
    match nth_error (heap w) ref with
    | Some (PyList _) => (Ok true, w)
    | _ => (Ok false, w)
    end.

(** [obj.append(x)]. *)
Definition append (ref : nat) (x : TuneRecord) : M unit :=
  fun w =>
    match nth_error (heap w) ref with
    | Some (PyList items) =>
        (Ok tt, {| net := net w; out := out w;
                   heap := set_nth (heap w) ref (PyList (items ++ [x])) |})
    | _ => (Raise AttributeError, w)
    end.

(** [len(obj)]. *)
Definition len (ref : nat) : M Z :=
  fun w =>
    match nth_error (heap w) ref with
    | Some (PyList items) => (Ok (Z.of_nat (List.length items)), w)
    | _ => (Raise TypeError, w)
    end.

Definition assert (b : bool) : M unit :=
  if b then ret tt else raise (AssertionError "").

(** [range(a, b)]. *)
Definition range (a b : Z) : list Z :=
  map (fun i => a + Z.of_nat i) (seq 0 (Z.to_nat (b - a))).

(** The body of the [for] loop, run over the identifiers in turn. *)
Fixpoint for_each (env : Env) (nums : list Z) (tune_list : nat) : M unit :=
  match nums with
  | [] => ret tt
  | num :: rest =>
      (fetched <- try_ (fetch env num) ;;
       match fetched with
       | Raise HTTPError => for_each env rest tune_list
       | Raise e => raise e
       | Ok soup =>
           strained_soup <- lift (strain_soup soup num) ;;
           _ <- append tune_list strained_soup ;;
           for_each env rest tune_list
       end)%monad
  end.

(** [get_session_tunes(pages, start, library)]; [library] and the returned
    value are references into the heap. *)
Definition get_session_tunes (env : Env) (pages start : Z)
  (library : option nat) : M nat :=
  (tune_list <-
     match library with
     | Some ref =>
         checked <- try_ (is_list <- type_is_list ref ;; assert is_list) ;;
         match checked with
         | Ok _ => ret ref
         | Raise (AssertionError _) =>
             raise (AssertionError "library must be a 1D list.")
         | Raise e => raise e
         end
     | None => new_list
     end ;;
   _ <- for_each env (range start (start + pages)) tune_list ;;
   let id_range := PyStr.str start ++ "-" ++ PyStr.str (start + pages - 1) in
   n <- len tune_list ;;
   _ <- print ("Obtained data for " ++ PyStr.str n ++ " tunes (IDs "
               ++ id_range ++ ").") ;;
   ret tune_list)%monad.

(** ** The persistence merge *)

(** A row of the data frame once [id] is its index: the other columns. *)
Record Columns : Type := mkColumns {
  col_name : string;
  col_aliases : string;
  col_type : string;
  col_set_pairings : option (list Z);
  col_tabs : Z;
  col_recordings : option Z;
  col_collections : option Z;
  col_sets : option Z;
  col_books : option Z
}.

(** A data frame indexed by [id]: its rows in order, each with its index
    label. *)
Definition DataFrame : Type := list (Z * Columns).

Definition columns_of (t : TuneRecord) : Columns :=
  {| col_name := name t;
     col_aliases := aliases t;
     col_type := type_ t;
     col_set_pairings := set_pairings t;
     col_tabs := tabs t;
     col_recordings := recordings t;
     col_collections := collections t;
     col_sets := sets t;
     col_books := books t |}.

(** [pd.DataFrame(records).set_index('id')]: a frame built from no record
    has no [id] column. *)
Definition set_index_id (records : list TuneRecord) : result DataFrame :=
  match records with
  | [] => Raise (KeyError "None of ['id'] are in the columns")
  | _ :: _ => Ok (map (fun t => (id t, columns_of t)) records)
  end.

(** [pd.concat(frames)]: the rows of the frames one after the other, index
    labels kept. *)
Definition concat (frames : list DataFrame) : DataFrame :=
  List.concat frames.

(** The index labels of a frame. *)
Definition index (df : DataFrame) : list Z := map fst df.

(** Lines 312 to 318 of [main]: the frame handed to [to_json], from the
    frame read from [tunes.json] and the records of the batch. *)
Definition combine (library : DataFrame) (batch : list TuneRecord)
  : result DataFrame :=
  (indexed_df <~ set_index_id batch ;; Ok (concat [library; indexed_df]))%result.

(** ** Vocabulary of the statements *)

(** The characters of [s] that satisfy [p], in order. *)
Fixpoint keep (p : ascii -> bool) (s : string) : string :=
  match s with
  | EmptyString => EmptyString
  | String c r => if p c then String c (keep p r) else keep p r
  end.

(** The number a string of decimal digits denotes, read after [acc]. *)
Fixpoint decimal_from (acc : Z) (digits : string) : Z :=
  match digits with
  | EmptyString => acc
  | String c r => decimal_from (acc * 10 + PyStr.digit_value c) r
  end.

Definition decimal_value (digits : string) : Z := decimal_from 0 digits.

(** The phrase the aliases extractor deletes. *)
Definition also_known_as : string := "Also known as" ++ LF.

(** The document a page parses to, given the contents of its body. *)
Definition document (contents : list Node) : Node :=
  Tag "[document]" [] [] contents.

(** ** Example documents *)

(** [<p>no heading here</p>] *)
Definition doc_without_h1 : Node :=
  document [Tag "p" [] [] [NavigableString "no heading here"]].

(** [<h1><a>Reel</a> The Tune</h1>] *)
Definition doc_reel_the_tune : Node :=
  document
    [Tag "h1" [] []
       [Tag "a" [] [("href", "/tunes/search?type=reel")] [NavigableString "Reel"];
        NavigableString " The Tune"]].

(** [<h1>The Tune <a>Reel</a></h1>] *)
Definition doc_the_tune_reel : Node :=
  document
    [Tag "h1" [] []
       [NavigableString "The Tune ";
        Tag "a" [] [("href", "/tunes/search?type=reel")] [NavigableString "Reel"]]].

(** [<div class="stats"><a href="/tunes/2">Drowsy Maggie</a></div>] *)
Definition doc_stats_link_without_id : Node :=
  document
    [Tag "div" ["stats"] []
       [Tag "a" [] [("href", "/tunes/2")] [NavigableString "Drowsy Maggie"]]].

(** [<div class="stats"><a data-tuneid="2">..</a><a data-tuneid="27">..</a></div>] *)
Definition doc_stats_two_links : Node :=
  document
    [Tag "div" ["stats"] []
       [Tag "a" [] [("href", "/tunes/2"); ("data-tuneid", "2")]
          [NavigableString "Drowsy Maggie"];
        Tag "a" [] [("data-tuneid", "27"); ("href", "/tunes/27")]
          [NavigableString "The Silver Spear"]]].

(** [<div class="stats"><a data-tuneid="n/a">Drowsy Maggie</a></div>] *)
Definition doc_stats_link_not_a_number : Node :=
  document
    [Tag "div" ["stats"] []
       [Tag "a" [] [("data-tuneid", "n/a")] [NavigableString "Drowsy Maggie"]]].

(** [<p class="info">Cooley's\nAlso known as\nThe Tulla</p>] *)
Definition doc_aliases_interior : Node :=
  document
    [Tag "p" ["info"] []
       [NavigableString ("Cooley's" ++ LF ++ also_known_as ++ "The Tulla")]].

(** ** Example environments *)

(** No request gets through. *)
Definition env_offline : Env :=
  {| requests_get := fun _ _ => Raise ConnectionError;
     BeautifulSoup := fun _ => Ok (document []) |}.

(** The site answers 404 for the tune [missing] and serves [page] for every
    other tune. *)
Definition env_serving (missing : Z) (page : Node) : Env :=
  {| requests_get := fun _ url =>
       if String.eqb url (tunes_url ++ PyStr.str missing)
       then Ok {| status_code := 404; text := "Not Found" |}
       else Ok {| status_code := 200; text := "<!DOCTYPE html>" |};
     BeautifulSoup := fun _ => Ok page |}.

(** The site answers every request with markup that the parser rejects. *)
Definition env_rejected_markup : Env :=
  {| requests_get := fun _ _ =>
       Ok {| status_code := 200; text := "<![foo ]]>" |};
     BeautifulSoup := fun _ => Raise ParserRejectedMarkup |}.

Definition empty_world : World := {| net := []; out := []; heap := [] |}.

(** The URL [get_soup] requests for a tune. *)
Definition url_of (tune_id : Z) : string := tunes_url ++ PyStr.str tune_id.

(** The line [get_session_tunes] prints. *)
Definition report (count first last : Z) : string :=
  "Obtained data for " ++ PyStr.str count ++ " tunes (IDs "
  ++ (PyStr.str first ++ "-" ++ PyStr.str last) ++ ").".

(** The records the list [library] refers to holds when the call starts;
    none when the call makes its own list. *)
Definition initial_records (library : option nat) (w : World)
  : list TuneRecord :=
  match library with
  | None => []
  | Some ref =>
      match nth_error (heap w) ref with
      | Some (PyList items) => items
      | _ => []
      end
  end.

(** The record [strain_soup] makes of the page [doc_the_tune_reel]. *)
Definition the_tune_reel (tune_id : Z) : TuneRecord :=
  {| id := tune_id; name := "The Tune"; aliases := ""; type_ := "Reel";
     set_pairings := None; tabs := 0; recordings := Some 0;
     collections := Some 0; sets := Some 0; books := Some 0 |}.

(** A world whose only object is a list that holds the record of tune 40. *)
Definition world_with_library : World :=
  {| net := []; out := []; heap := [PyList [the_tune_reel 40]] |}.

(** A world whose only object is a tuple. *)
Definition world_with_tuple : World :=
  {| net := []; out := []; heap := [PyOther "tuple"] |}.

(** The aliases among the values [parse_paragraphs] returns. *)
Definition aliases_of (soup : Node) : string :=
  fst (fst (fst (parse_paragraphs soup))).

(** ** The batches of [main] *)

(** [list(range(a, stop, step))]; a zero step raises [ValueError]. *)
Definition range_step (a stop step : Z) : result (list Z) :=
  if step =? 0 then Raise ValueError
  else
    let n := if 0 <? step then (stop - a + step - 1) / step
             else (a - stop - step - 1) / (- step) in
    Ok (map (fun i => a + Z.of_nat i * step) (seq 0 (Z.to_nat n))).

Definition number_tunes : Z := 24000.
Definition batch_size : Z := 250.
Definition starting_point : Z := 1.

(** [batches] of [main]. *)
Definition batches : result (list Z) :=
  range_step starting_point number_tunes batch_size.

(** The identifiers a run over the batches [bs] asks [get_session_tunes]
    for, batch after batch. *)
Definition attempted (bs : list Z) (size : Z) : list Z :=
  flat_map (fun batch => range batch (batch + size)) bs.

(** [pd.DataFrame(tune_list)]: the records of the list object, in order. *)
Definition list_items (ref : nat) : M (list TuneRecord) :=
  fun w =>
    match nth_error (heap w) ref with
    | Some (PyList items) => (Ok items, w)
    | _ => (Raise TypeError, w)
    end.

(** One round of the loop of [main] up to the frame it writes; [library] is
    the frame [pd.read_json('tunes.json')] returns. *)
Definition merge_batch (env : Env) (size batch : Z) (library : DataFrame)
  : M DataFrame :=
  (tune_list <- get_session_tunes env size batch None ;;
   records <- list_items tune_list ;;
   lift (combine library records))%monad.

(** [df.to_json('tunes.json')] with its default orient: a frame whose index
    labels are not all different is refused with [ValueError] before
    anything is written; otherwise the file holds the frame. *)
Fixpoint is_unique (labels : list Z) : bool :=
  match labels with
  | [] => true
  | x :: r => negb (List.existsb (Z.eqb x) r) && is_unique r
  end.

Definition to_json (df : DataFrame) : result DataFrame :=
  if is_unique (index df) then Ok df else Raise ValueError.

(** One round of the loop of [main]; [tunes_json] is the frame the file
    holds, which [pd.read_json] returns, and the second component of the
    outcome is the frame it holds afterwards. *)
Definition main_round (env : Env) (size batch : Z) (tunes_json : DataFrame)
  (w : World) : result unit * DataFrame * World :=
  match merge_batch env size batch tunes_json w with
  | (Ok combined_data, w') =>
      match to_json combined_data with
      | Ok written => (Ok tt, written, w')
      | Raise e => (Raise e, tunes_json, w')
      end
  | (Raise e, w') => (Raise e, tunes_json, w')
  end.

(** The records extracted during a run of the loop of [get_session_tunes]
    over [nums]: the pages are fetched in order with [get_soup]; a fetch
    that raises [HTTPError] is skipped; a fetched page gives the record of
    [strain_soup]; any other exception ends the run.  [log] lists the
    requests made before. *)
Fixpoint extracted (env : Env) (nums : list Z) (log : list string)
  : list TuneRecord :=
  match nums with
  | [] => []
  | num :: rest =>
      match get_soup env num log with
      | (Ok soup, log') =>
          match strain_soup soup num with
          | Ok t => t :: extracted env rest log'
          | Raise _ => []
          end
      | (Raise HTTPError, log') => extracted env rest log'
      | (Raise _, _) => []
      end
  end.

(** A literal of at most as many digits as [int] accepts. *)
Definition within_digit_limit (digits : string) : bool :=
  Z.of_nat (String.length digits) <=? PyStr.int_max_str_digits.

(** The loop of [main] over the batches, from the frame [tunes.json] holds
    at the start: a round that raises ends the run. *)
Fixpoint main_loop (env : Env) (size : Z) (rounds : list Z)
  (tunes_json : DataFrame) (w : World) : result unit * DataFrame * World :=
  match rounds with
  | [] => (Ok tt, tunes_json, w)
  | batch :: rest =>
      match main_round env size batch tunes_json w with
      | (Ok _, written, w') => main_loop env size rest written w'
      | (Raise e, kept, w') => (Raise e, kept, w')
      end
  end.

Definition main (env : Env) (tunes_json : DataFrame) (w : World)
  : result unit * DataFrame * World :=
  match batches with
  | Ok rounds => main_loop env batch_size rounds tunes_json w
  | Raise e => (Raise e, tunes_json, w)
  end.

(** The tunes of the first batch of [main] that [env_serving 2] serves, and
    the frame [tunes.json] holds once their rows are written to an empty
    one. *)
Definition served_in_first_batch : list Z :=
  1 :: range 3 (starting_point + batch_size).

Definition frame_after_first_round : DataFrame :=
  map (fun i => (i, columns_of (the_tune_reel i))) served_in_first_batch.

(** [s] is [l] with some of its elements left out. *)
Fixpoint subseq (s l : list Z) : Prop :=
  match l with
  | [] => s = []
  | y :: l' =>
      match s with
      | [] => True
      | x :: s' => (x = y /\ subseq s' l') \/ subseq s l'
      end
  end.

(** The record [strain_soup] makes of a page on which no extractor finds
    its element. *)
Definition default_record (tune_id : Z) : TuneRecord :=
  {| id := tune_id; name := "Error"; aliases := ""; type_ := "Error";
     set_pairings := None; tabs := 0; recordings := Some 0;
     collections := Some 0; sets := Some 0; books := Some 0 |}.

(** The criterion of the tab counter. *)
Definition is_setting (n : Node) : bool :=
  Bs4.named "div" n && Bs4.has_class "setting-sheetmusic" n.


(** [<h1>Cooley's</h1>] *)
Definition doc_heading_without_link : Node :=
  document [Tag "h1" [] [] [NavigableString "Cooley's"]].

(** [<details><summary><a href="/tunes/1/recordings">1,234 recordings</a>
    </summary></details>], the count written by [str]. *)
Definition doc_recordings (n : Z) : Node :=
  document
    [Tag "details" [] []
       [Tag "summary" [] []
          [Tag "a" [] [("href", "/tunes/1/recordings")]
             [NavigableString (PyStr.str n ++ " recordings")]]]].




(** The criterion of the tune-books count. *)
Definition is_tune_book_paragraph (n : Node) : bool :=
  Bs4.named "p" n && Bs4.string_matches search_tune_book n.


Definition books_of (soup : Node) : option Z := snd (parse_paragraphs soup).

(** [<p><a href="/tunes/1/sets">57 tune sets</a></p><p>This tune has been
    added to 431 tunebooks.</p>], the counts written by [str]. *)
Definition doc_sets_and_books (sets books : Z) : Node :=
  document
    [Tag "p" [] []
       [Tag "a" [] [("href", "/tunes/1/sets")]
          [NavigableString (PyStr.str sets ++ " tune sets")]];
     Tag "p" [] []
       [NavigableString ("This tune " ++ "Has Been Added To "
                         ++ PyStr.str books ++ " tunebooks.")]].

(** * Properties *)

(** ** Strings *)

Section StringFacts.

Lemma append_nil_r (s : string) : s ++ "" = s.
Proof. induction s as [|c s IH]; simpl; [reflexivity | now rewrite IH]. Qed.

Lemma append_assoc (a b c : string) : (a ++ b) ++ c = a ++ b ++ c.
Proof. induction a as [|x a IH]; simpl; [reflexivity | now rewrite IH]. Qed.

Lemma keep_forallb p (s : string) : PyStr.forallb p (keep p s) = true.
Proof.
  induction s as [|c s IH]; simpl; [reflexivity|].
  destruct (p c) eqn:E; simpl; [now rewrite E|assumption].
Qed.

(** Deleting a one-character [old] keeps exactly the other characters. *)
Lemma replace_char_delete (s : string) (c : ascii) :
  PyStr.replace s (String c "") "" = keep (fun x => negb (Ascii.eqb x c)) s.
Proof.
  unfold PyStr.replace.
  induction s as [|x s IH]; [reflexivity|].
  cbn [PyStr.replace_scan keep prefix].
  destruct (ascii_dec c x) as [->|Hne].
  - rewrite Ascii.eqb_refl. cbn. destruct s; exact IH.
  - assert (Ascii.eqb x c = false) as ->
        by (apply Ascii.eqb_neq; congruence).
    cbn. now rewrite IH.
Qed.

End StringFacts.

(** ** The count parser *)

Section CountParser.

Ltac ascii_cases c :=
  destruct c as [[] [] [] [] [] [] [] []]; try reflexivity; try discriminate.

Lemma digit_not_space (c : ascii) :
  PyStr.is_digit c = true -> PyStr.is_space c = false.
Proof. ascii_cases c. Qed.

Lemma class_not_comma (c : ascii) :
  count_class c = true -> negb (Ascii.eqb c ",") = PyStr.is_digit c.
Proof. ascii_cases c. Qed.

Lemma scan_digits_all (d : string) :
  forall acc digits seen,
    PyStr.forallb PyStr.is_digit d = true ->
    seen = true \/ d <> "" ->
    PyStr.scan_digits acc digits seen false d
    = Some (decimal_from acc d, (digits + String.length d)%nat, "").
Proof.
  induction d as [|c d IH]; intros acc digits seen Hall Hne.
  - destruct Hne as [-> | Hne]; [|congruence].
    cbn. now rewrite Nat.add_0_r.
  - simpl in Hall. apply andb_true_iff in Hall as [Hc Hd].
    simpl. rewrite Hc, Nat.add_succ_r. apply IH; auto.
Qed.

Lemma int_sign_digit (c : ascii) (r : string) :
  PyStr.is_digit c = true ->
  match String c r with
  | String "+" r0 => (1, r0)
  | String "-" r0 => (-1, r0)
  | _ => (1, String c r)
  end = (1, String c r).
Proof. ascii_cases c. Qed.

(** [int] of a non-empty string of digits is the number it denotes when
    the digits are within the limit, and [ValueError] when they are not. *)
Lemma int_digits (d : string) :
  d <> "" ->
  PyStr.forallb PyStr.is_digit d = true ->
  PyStr.int d = if within_digit_limit d then Ok (decimal_value d)
                else Raise ValueError.
Proof.
  intros Hne Hall.
  destruct d as [|c r]; [congruence|].
  pose proof Hall as Hall'.
  simpl in Hall'. apply andb_true_iff in Hall' as [Hc _].
  unfold PyStr.int.
  cbn [PyStr.drop_while]. rewrite (digit_not_space c Hc).
  rewrite (int_sign_digit c r Hc).
  rewrite (scan_digits_all (String c r) 0 0 false Hall) by (right; congruence).
  cbn [PyStr.drop_while PyStr.is_empty Nat.add].
  unfold within_digit_limit.
  destruct (Z.leb_spec (Z.of_nat (String.length (String c r)))
                       PyStr.int_max_str_digits) as [Hle | Hgt].
  - assert ((PyStr.int_max_str_digits
             <? Z.of_nat (String.length (String c r))) = false) as ->
        by (apply Z.ltb_ge; exact Hle).
    unfold decimal_value. now rewrite Z.mul_1_l.
  - assert ((PyStr.int_max_str_digits
             <? Z.of_nat (String.length (String c r))) = true) as ->
        by (apply Z.ltb_lt; exact Hgt).
    reflexivity.
Qed.

Lemma take_while_forallb p (s : string) :
  PyStr.forallb p (PyStr.take_while p s) = true.
Proof.
  induction s as [|c s IH]; simpl; [reflexivity|].
  destruct (p c) eqn:E; simpl; [now rewrite E | reflexivity].
Qed.

Lemma existsb_take_while p q (s : string) :
  PyStr.existsb p s = false -> PyStr.existsb p (PyStr.take_while q s) = false.
Proof.
  induction s as [|c s IH]; simpl; [reflexivity|].
  intros H. apply orb_false_iff in H as [Hc Hs].
  destruct (q c); simpl; [|reflexivity].
  now rewrite Hc, IH.
Qed.

Lemma re_search_count_class (text run : string) :
  re_search_count text = Some run ->
  PyStr.forallb count_class run = true /\ run <> "".
Proof.
  induction text as [|c r IH]; simpl; [discriminate|].
  destruct (count_class c) eqn:E.
  - intros [= <-]. split; [|discriminate].
    simpl. rewrite E. apply take_while_forallb.
  - exact IH.
Qed.

Lemma re_search_count_existsb p (text run : string) :
  PyStr.existsb p text = false ->
  re_search_count text = Some run ->
  PyStr.existsb p run = false.
Proof.
  induction text as [|c r IH]; simpl; [discriminate|].
  intros H. apply orb_false_iff in H as [Hc Hr].
  destruct (count_class c) eqn:E.
  - intros [= <-]. simpl. rewrite Hc. now apply existsb_take_while.
  - now apply IH.
Qed.

Lemma keep_class_digits (run : string) :
  PyStr.forallb count_class run = true ->
  keep (fun x => negb (Ascii.eqb x ",")) run = keep PyStr.is_digit run.
Proof.
  induction run as [|c r IH]; simpl; [reflexivity|].
  intros H. apply andb_true_iff in H as [Hc Hr].
  rewrite (class_not_comma c Hc), (IH Hr). reflexivity.
Qed.

Lemma keep_none p (s : string) :
  PyStr.existsb p s = false -> keep p s = "".
Proof.
  induction s as [|c s IH]; simpl; [reflexivity|].
  intros H. apply orb_false_iff in H as [-> Hs]. auto.
Qed.

Lemma keep_some p (s : string) :
  PyStr.existsb p s = true -> keep p s <> "".
Proof.
  induction s as [|c s IH]; simpl; [discriminate|].
  destruct (p c); [discriminate | exact IH].
Qed.

(** What [parse_count] returns, in terms of the run [re.search] finds. *)
Lemma parse_count_run (text : string) :
  parse_count text =
  Ok match re_search_count text with
     | Some run =>
         if PyStr.existsb PyStr.is_digit run
            && within_digit_limit (keep PyStr.is_digit run)
         then Some (decimal_value (keep PyStr.is_digit run))
         else None
     | None => None
     end.
Proof.
  unfold parse_count.
  destruct (re_search_count text) as [run|] eqn:E; [|reflexivity].
  destruct (re_search_count_class _ _ E) as [Hclass _].
  cbn [group rbind].
  rewrite replace_char_delete, (keep_class_digits run Hclass).
  destruct (PyStr.existsb PyStr.is_digit run) eqn:D; cbn [andb].
  - rewrite int_digits; [| now apply keep_some | apply keep_forallb].
    destruct (within_digit_limit (keep PyStr.is_digit run)); reflexivity.
  - rewrite (keep_none _ _ D). reflexivity.
Qed.

(** A text without any digit has no count. *)
Lemma parse_count_no_digit (text : string) :
  PyStr.existsb PyStr.is_digit text = false ->
  parse_count text = Ok None.
Proof.
  intros H. rewrite parse_count_run.
  destruct (re_search_count text) as [run|] eqn:E; [|reflexivity].
  now rewrite (re_search_count_existsb _ _ _ H E).
Qed.

(** [re.search] finds the first maximal run of class characters. *)
Lemma re_search_count_first_run (pre run post : string) :
  PyStr.existsb count_class pre = false ->
  PyStr.forallb count_class run = true ->
  run <> "" ->
  (exists c r, post = String c r /\ count_class c = false) \/ post = "" ->
  re_search_count (pre ++ run ++ post) = Some run.
Proof.
  intros Hpre Hrun Hne Hpost.
  assert (Hstop : PyStr.take_while count_class post = "").
  { destruct Hpost as [(c & r & -> & Hc) | ->].
    - simpl. now rewrite Hc.
    - reflexivity. }
  clear Hpost.
  induction pre as [|c pre IH].
  - simpl. destruct run as [|c r]; [congruence|].
    simpl in Hrun |- *. apply andb_true_iff in Hrun as [Hc Hr].
    rewrite Hc. f_equal. f_equal.
    clear Hne Hc. induction r as [|x r IHr]; simpl; [exact Hstop|].
    simpl in Hr. apply andb_true_iff in Hr as [Hx Hr]. rewrite Hx.
    now rewrite IHr.
  - simpl in Hpre |- *. apply orb_false_iff in Hpre as [-> Hpre]. auto.
Qed.

(** When the first run of digits and commas holds a digit, and no more
    digits than [int] accepts, the count is the number its digits denote. *)
Lemma parse_count_first_run (pre run post : string) :
  PyStr.existsb count_class pre = false ->
  PyStr.forallb count_class run = true ->
  PyStr.existsb PyStr.is_digit run = true ->
  within_digit_limit (keep PyStr.is_digit run) = true ->
  (exists c r, post = String c r /\ count_class c = false) \/ post = "" ->
  parse_count (pre ++ run ++ post)
  = Ok (Some (decimal_value (keep PyStr.is_digit run))).
Proof.
  intros Hpre Hrun Hdig Hlimit Hpost.
  rewrite parse_count_run, (re_search_count_first_run pre run post); auto.
  - now rewrite Hdig, Hlimit.
  - intros ->. discriminate.
Qed.

Example parse_count_thousands :
  parse_count "1,234 recordings" = Ok (Some 1234).
Proof. reflexivity. Qed.

Example parse_count_words : parse_count "no recordings yet" = Ok None.
Proof. reflexivity. Qed.

(** C3.  A text with a digit does not always yield its number: in
    ["Jigs, 12 recordings"] the first run of digits and commas is the lone
    comma after ["Jigs"], [int] of the empty string raises [ValueError], and
    [parse_count] returns [None] although the text holds the number 12. *)
Lemma parse_count_comma_before_number :
  PyStr.existsb PyStr.is_digit "Jigs, 12 recordings" = true
  /\ re_search_count "Jigs, 12 recordings" = Some ","
  /\ parse_count "Jigs, 12 recordings" = Ok None.
Proof. repeat split; reflexivity. Qed.

(** [parse_count] raises nothing; a text without any digit has no
    count. *)
Lemma parse_count_first_run_or_none (text : string) :
  (exists count, parse_count text = Ok count)
  /\ (PyStr.existsb PyStr.is_digit text = true \/ parse_count text = Ok None).
Proof.
  split; [rewrite parse_count_run; eauto|].
  destruct (PyStr.existsb PyStr.is_digit text) eqn:E; [now left | right].
  now apply parse_count_no_digit.
Qed.

End CountParser.

(** ** Name and type *)

Section Heading.

Lemma rstrip_all_in (y chars : string) :
  PyStr.forallb (fun c => PyStr.mem c chars) y = true ->
  PyStr.rstrip y chars = "".
Proof.
  induction y as [|c y IH]; simpl; [reflexivity|].
  intros H. apply andb_true_iff in H as [Hc Hy].
  now rewrite (IH Hy), Hc.
Qed.

(** Characters in front of a stripped-away tail are stripped in turn. *)
Lemma rstrip_app_gone (x y chars : string) :
  PyStr.rstrip y chars = "" ->
  PyStr.rstrip (x ++ y) chars = PyStr.rstrip x chars.
Proof.
  intros Hy. induction x as [|c x IH]; simpl; [exact Hy|].
  now rewrite IH.
Qed.

(** A tail that survives protects what is in front of it. *)
Lemma rstrip_app_kept (x y chars : string) :
  PyStr.rstrip y chars <> "" ->
  PyStr.rstrip (x ++ y) chars = x ++ PyStr.rstrip y chars.
Proof.
  intros Hy. induction x as [|c x IH]; simpl; [reflexivity|].
  rewrite IH. destruct (PyStr.rstrip y chars) as [|d r] eqn:E; [congruence|].
  destruct x; reflexivity.
Qed.

Lemma mem_append (c : ascii) (a b : string) :
  PyStr.mem c (a ++ b) = PyStr.mem c a || PyStr.mem c b.
Proof.
  induction a as [|x a IH]; simpl; [reflexivity|].
  now rewrite IH, orb_assoc.
Qed.

Lemma forallb_mem_self (pre l : string) :
  PyStr.forallb (fun c => PyStr.mem c (pre ++ l)) l = true.
Proof.
  revert pre. induction l as [|c l IH]; intros pre; simpl; [reflexivity|].
  apply andb_true_iff. split.
  - rewrite mem_append. simpl. rewrite Ascii.eqb_refl.
    now rewrite orb_true_r.
  - specialize (IH (pre ++ String c "")).
    now rewrite append_assoc in IH.
Qed.

(** Stripping the characters of [label] from [x ++ " " ++ label] stops at
    the space. *)
Lemma rstrip_label_after_space (x label : string) :
  PyStr.mem " " label = false ->
  PyStr.rstrip (x ++ " " ++ label) label = x ++ " ".
Proof.
  intros Hsp.
  assert (Hl : PyStr.rstrip label label = "")
    by (apply rstrip_all_in; exact (forallb_mem_self "" label)).
  assert (Hs : PyStr.rstrip (" " ++ label) label = " ").
  { change (" " ++ label) with (String " " label).
    cbn [PyStr.rstrip]. now rewrite Hl, Hsp. }
  rewrite rstrip_app_kept; rewrite Hs; [reflexivity | discriminate].
Qed.

(** Without an [h1] both lookups on [None] raise and both defaults are
    ["Error"]: the pair of ["H1 Error"] is returned only if [find] itself
    raises, which it does not on a parsed document. *)
Lemma parse_h1_no_heading (soup : Node) :
  Bs4.find (Bs4.named "h1") soup = None ->
  parse_h1 soup = ("Error", "Error").
Proof. intros H. unfold parse_h1. now rewrite H. Qed.

(** C4.  A document without a heading yields [("Error", "Error")], not
    [("H1 Error", "H1 Error")]. *)
Theorem parse_h1_without_h1 :
  Bs4.find (Bs4.named "h1") doc_without_h1 = None
  /\ parse_h1 doc_without_h1 = ("Error", "Error")
  /\ parse_h1 doc_without_h1 <> ("H1 Error", "H1 Error").
Proof. repeat split; try reflexivity. discriminate. Qed.

(** The claim of C5 as stated fails: for the heading ["Reel The Tune"] whose
    type link reads ["Reel"], the extracted name is ["Reel The Tun"]. *)
Lemma parse_h1_reel_the_tune :
  exists h1 a,
    Bs4.find (Bs4.named "h1") doc_reel_the_tune = Some h1
    /\ Bs4.find (Bs4.named "a") h1 = Some a
    /\ Bs4.get_text h1 = "Reel The Tune"
    /\ Bs4.get_text a = "Reel"
    /\ parse_h1 doc_reel_the_tune = ("Reel", "Reel The Tun")
    /\ snd (parse_h1 doc_reel_the_tune) <> "The Tune".
Proof.
  do 2 eexists. repeat split; try reflexivity. discriminate.
Qed.

(** C5 (amended).  When the heading text is a name, one space, and the text
    of the heading's type link, and that label holds no space, the
    extractor returns the label as type and the name without its trailing
    spaces as name. *)
Theorem parse_h1_name_then_type (soup h1 a : Node) (tune label : string) :
  Bs4.find (Bs4.named "h1") soup = Some h1 ->
  Bs4.find (Bs4.named "a") h1 = Some a ->
  Bs4.get_text a = label ->
  Bs4.get_text h1 = tune ++ " " ++ label ->
  PyStr.mem " " label = false ->
  parse_h1 soup = (label, PyStr.rstrip tune " ").
Proof.
  intros Hh1 Ha Hlabel Htext Hsp.
  unfold parse_h1. rewrite Hh1.
  cbn [Bs4.find_on Bs4.text_of rbind try_default].
  rewrite Ha. cbn [Bs4.text_of rbind try_default].
  rewrite Hlabel, Htext, (rstrip_label_after_space tune label Hsp).
  f_equal. now apply rstrip_app_gone.
Qed.

Lemma parse_h1_name_then_type_witness :
  parse_h1 doc_the_tune_reel = ("Reel", "The Tune").
Proof.
  exact (parse_h1_name_then_type doc_the_tune_reel
           (Tag "h1" [] []
              [NavigableString "The Tune ";
               Tag "a" [] [("href", "/tunes/search?type=reel")]
                 [NavigableString "Reel"]])
           (Tag "a" [] [("href", "/tunes/search?type=reel")]
              [NavigableString "Reel"])
           "The Tune" "Reel"
           eq_refl eq_refl eq_refl eq_refl eq_refl).
Defined.

End Heading.

(** ** Related tunes *)

Section Stats.

(** Without a [stats] region the lookup on [None] raises [AttributeError],
    which the extractor turns into [None]. *)
Lemma parse_stats_no_region (soup : Node) :
  Bs4.find (Bs4.has_class "stats") soup = None ->
  parse_stats soup = Ok None.
Proof. intros H. unfold parse_stats. now rewrite H. Qed.

Lemma comprehension_all {A B : Type} (f : A -> result B) (l : list A)
  (ys : list B) :
  Forall2 (fun x y => f x = Ok y) l ys ->
  comprehension f l = Ok ys.
Proof.
  induction 1 as [|x y l ys Hx _ IH]; simpl; [reflexivity|].
  now rewrite Hx, IH.
Qed.

(** The first element whose expression raises ends the comprehension with
    that exception. *)
Lemma comprehension_raise {A B : Type} (f : A -> result B)
  (l1 l2 : list A) (x : A) (ys : list B) (e : exn) :
  Forall2 (fun x y => f x = Ok y) l1 ys ->
  f x = Raise e ->
  comprehension f (l1 ++ x :: l2) = Raise e.
Proof.
  induction 1 as [|x1 y l1 ys Hx _ IH]; simpl; intros He.
  - now rewrite He.
  - now rewrite Hx, IH.
Qed.

(** With the region present and an integer literal in [data-tuneid] of
    each of its links, the identifiers are returned in document order. *)
Lemma parse_stats_all_links (soup region : Node) (ids : list Z) :
  Bs4.find (Bs4.has_class "stats") soup = Some region ->
  Forall2 (fun tune i =>
             exists v, Bs4.getitem tune "data-tuneid" = Ok v
                       /\ PyStr.int v = Ok i)
          (Bs4.find_all (Bs4.named "a") region) ids ->
  parse_stats soup = Ok (Some ids).
Proof.
  intros Hr Hall. unfold parse_stats. rewrite Hr.
  cbn [Bs4.findAll_on rbind].
  rewrite (comprehension_all _ _ ids); [reflexivity|].
  eapply Forall2_impl; [|exact Hall].
  intros tune i (v & Hv & Hi). cbn beta. now rewrite Hv.
Qed.

(** A link of the region without [data-tuneid] raises [KeyError], which
    [except (TypeError, AttributeError)] lets through. *)
Lemma parse_stats_missing_attribute (soup region tune : Node)
  (before after : list Node) (ids : list Z) :
  Bs4.find (Bs4.has_class "stats") soup = Some region ->
  Bs4.find_all (Bs4.named "a") region = (before ++ tune :: after)%list ->
  Forall2 (fun tune i =>
             exists v, Bs4.getitem tune "data-tuneid" = Ok v
                       /\ PyStr.int v = Ok i) before ids ->
  Bs4.getitem tune "data-tuneid" = Raise (KeyError "data-tuneid") ->
  parse_stats soup = Raise (KeyError "data-tuneid").
Proof.
  intros Hr Hlinks Hbefore Hmiss. unfold parse_stats. rewrite Hr.
  cbn [Bs4.findAll_on rbind]. rewrite Hlinks.
  rewrite (comprehension_raise _ before after tune ids (KeyError "data-tuneid"));
    [reflexivity | | now rewrite Hmiss].
  eapply Forall2_impl; [|exact Hbefore].
  intros t i (v & Hv & Hi). cbn beta. now rewrite Hv.
Qed.

Example parse_stats_two_links :
  parse_stats doc_stats_two_links = Ok (Some [2; 27]).
Proof. reflexivity. Qed.

(** Nor is the [ValueError] of [int] caught. *)
Example parse_stats_link_not_a_number :
  parse_stats doc_stats_link_not_a_number = Raise ValueError.
Proof. reflexivity. Qed.

(** C6.  A link in the [stats] region without [data-tuneid] makes the
    extractor raise [KeyError] instead of returning [None]; the exception
    also ends [strain_soup] for the page. *)
Theorem parse_stats_link_without_id :
  (exists region,
      Bs4.find (Bs4.has_class "stats") doc_stats_link_without_id = Some region
      /\ exists tune,
          Bs4.find_all (Bs4.named "a") region = [tune]
          /\ Bs4.getitem tune "data-tuneid" = Raise (KeyError "data-tuneid"))
  /\ parse_stats doc_stats_link_without_id = Raise (KeyError "data-tuneid")
  /\ strain_soup doc_stats_link_without_id 1 = Raise (KeyError "data-tuneid").
Proof.
  split; [|split; reflexivity].
  eexists. split; [reflexivity|]. eexists. split; reflexivity.
Qed.

End Stats.

(** ** Aliases *)

Section Aliases.

Lemma prefix_nil (b : string) : prefix "" b = true.
Proof. destruct b; reflexivity. Qed.

Lemma prefix_self_append (s b : string) : prefix s (s ++ b) = true.
Proof.
  induction s as [|c s IH]; simpl; [apply prefix_nil|].
  destruct (ascii_dec c c); [exact IH | congruence].
Qed.

Lemma prefix_length (s t : string) :
  prefix s t = true -> (String.length s <= String.length t)%nat.
Proof.
  revert t. induction s as [|c s IH]; intros t; [simpl; lia|].
  destruct t as [|d t]; simpl; [discriminate|].
  destruct (ascii_dec c d); [|discriminate].
  intros H. apply IH in H. lia.
Qed.

(** A pattern that never uses [h] cannot run into a following [h]. *)
Lemma prefix_stops_before (h : ascii) (t a rest : string) :
  PyStr.mem h t = false ->
  prefix t (a ++ String h rest) = prefix t a.
Proof.
  revert a. induction t as [|x t IH]; intros a Hmem;
    [now rewrite !prefix_nil|].
  simpl in Hmem. apply orb_false_iff in Hmem as [Hx Ht].
  destruct a as [|y a]; simpl.
  - destruct (ascii_dec x h) as [->|_]; [|reflexivity].
    now rewrite Ascii.eqb_refl in Hx.
  - destruct (ascii_dec x y); [now apply IH | reflexivity].
Qed.

Lemma replace_scan_skip (old new t b : string) :
  PyStr.replace_scan old new (String.length t) (t ++ b)
  = PyStr.replace_scan old new O b.
Proof. induction t as [|c t IH]; [destruct b; reflexivity | exact IH]. Qed.

(** For a pattern whose first character does not occur in it again, an
    occurrence is replaced wherever it stands, and the text on either side
    of it is scanned on its own. *)
Lemma replace_scan_occurrence (h : ascii) (t new b : string) :
  PyStr.mem h t = false ->
  forall (a : string) (k : nat),
    (k <= String.length a)%nat ->
    PyStr.replace_scan (String h t) new k (a ++ String h t ++ b)
    = PyStr.replace_scan (String h t) new k a
      ++ new ++ PyStr.replace_scan (String h t) new O b.
Proof.
  intros Hmem. induction a as [|c a IH]; intros k Hk.
  - assert (k = O) as -> by (simpl in Hk; lia).
    change ("" ++ String h t ++ b) with (String h (t ++ b)).
    cbn [PyStr.replace_scan append].
    change (String h (t ++ b)) with (String h t ++ b).
    rewrite prefix_self_append.
    cbn [String.length Nat.pred]. now rewrite replace_scan_skip.
  - change (String c a ++ String h t ++ b) with (String c (a ++ String h t ++ b)).
    destruct k as [|k].
    + cbn [PyStr.replace_scan].
      assert (Hp : prefix (String h t) (String c (a ++ String h t ++ b))
                   = prefix (String h t) (String c a)).
      { simpl. destruct (ascii_dec h c); [|reflexivity].
        change (String h (t ++ b)) with (String h (t ++ b)).
        now apply prefix_stops_before. }
      rewrite Hp.
      destruct (prefix (String h t) (String c a)) eqn:E.
      * apply prefix_length in E. simpl in E.
        cbn [String.length Nat.pred].
        rewrite IH by lia. now rewrite append_assoc.
      * rewrite IH by lia. reflexivity.
    + cbn [PyStr.replace_scan]. apply IH. simpl in Hk. lia.
Qed.

Lemma replace_scan_without_head (h : ascii) (t new s : string) :
  PyStr.mem h s = false ->
  PyStr.replace_scan (String h t) new O s = s.
Proof.
  induction s as [|c s IH]; [reflexivity|].
  simpl. intros H. apply orb_false_iff in H as [Hc Hs].
  destruct (ascii_dec h c) as [->|_].
  - now rewrite Ascii.eqb_refl in Hc.
  - now rewrite IH.
Qed.

Lemma replace_nonempty (s : string) (h : ascii) (t new : string) :
  PyStr.replace s (String h t) new = PyStr.replace_scan (String h t) new O s.
Proof. reflexivity. Qed.

Lemma also_known_as_head :
  also_known_as = String "A" ("lso known as" ++ LF).
Proof. reflexivity. Qed.

(** C10.  An occurrence of ["Also known as\n"] is deleted from the text of
    the info paragraph wherever it stands, with any text [before] it: the
    aliases are what the extractor makes of [before] followed by what it
    makes of [after]. *)
Theorem parse_paragraphs_aliases_every_occurrence
  (soup info : Node) (before after : string) :
  Bs4.find (fun n => Bs4.named "p" n && Bs4.has_class "info" n) soup
  = Some info ->
  Bs4.get_text info = before ++ also_known_as ++ after ->
  aliases_of soup = PyStr.replace before also_known_as ""
                    ++ PyStr.replace after also_known_as "".
Proof.
  intros Hfind Htext.
  assert (Hal : aliases_of soup
                = PyStr.replace (before ++ also_known_as ++ after)
                                also_known_as "").
  { unfold aliases_of, parse_paragraphs. cbn [fst]. rewrite Hfind.
    cbn [Bs4.text_of rbind try_default]. now rewrite Htext. }
  rewrite Hal. rewrite also_known_as_head, !replace_nonempty.
  now rewrite (replace_scan_occurrence "A" ("lso known as" ++ LF) "" after
                 eq_refl before O (Nat.le_0_l _)).
Qed.

Lemma parse_paragraphs_aliases_every_occurrence_witness :
  aliases_of doc_aliases_interior = ("Cooley's" ++ LF) ++ "The Tulla".
Proof.
  exact (parse_paragraphs_aliases_every_occurrence
           doc_aliases_interior
           (Tag "p" ["info"] []
              [NavigableString ("Cooley's" ++ LF ++ also_known_as ++ "The Tulla")])
           ("Cooley's" ++ LF) "The Tulla" eq_refl eq_refl).
Defined.

(** Text without a capital A holds no occurrence and is kept as it is. *)
Lemma replace_also_known_as_plain (s : string) :
  PyStr.mem "A" s = false -> PyStr.replace s also_known_as "" = s.
Proof.
  intros H. rewrite also_known_as_head, replace_nonempty.
  now apply replace_scan_without_head.
Qed.

End Aliases.

(** ** The fetcher *)

Section Fetcher.

Variable env : Env.

(** Two iterations exhaust the loop: more fuel changes nothing. *)
Lemma request_loop_fuel (url : string) (log : list string) (fuel : nat) :
  request_loop env url (2 + fuel) 0 true None log
  = request_loop env url 2 0 true None log.
Proof.
  cbn [request_loop Nat.add andb Z.ltb Z.compare].
  destruct (requests_get env log url); [destruct fuel; reflexivity|].
  cbn [request_loop Nat.add andb Z.ltb Z.compare Z.add Pos.compare Pos.compare_cont].
  destruct fuel;
    cbn [request_loop Nat.add andb Z.ltb Z.compare Z.add Pos.compare Pos.compare_cont];
    destruct (requests_get env (log ++ [url]) url); try reflexivity;
    cbn; destruct fuel; reflexivity.
Qed.

(** A first request that is answered is the only one. *)
Lemma get_soup_first_answered (tune_id : Z) (log : list string)
  (resp : Response) :
  let url := url_of tune_id in
  requests_get env log url = Ok resp ->
  get_soup env tune_id log
  = (match raise_for_status resp with
     | Raise _ => Raise HTTPError
     | Ok _ => BeautifulSoup env (text resp)
     end, (log ++ [url])%list).
Proof.
  intros url H. unfold get_soup. change (tunes_url ++ PyStr.str tune_id) with url.
  cbn [request_loop andb Z.ltb Z.compare]. rewrite H.
  cbn [request_loop andb read_local rbind].
  destruct (raise_for_status resp); reflexivity.
Qed.

(** Every call of [get_soup] requests the page of its tune first. *)
Lemma get_soup_log (tune_id : Z) (log : list string) :
  exists more,
    snd (get_soup env tune_id log)
    = (log ++ (url_of tune_id) :: more)%list.
Proof.
  unfold get_soup. change (tunes_url ++ PyStr.str tune_id) with (url_of tune_id).
  set (url := url_of tune_id).
  cbn [request_loop andb Z.ltb Z.compare].
  destruct (requests_get env log url) as [resp|e1].
  - exists []. cbn [request_loop andb read_local rbind].
    destruct (raise_for_status resp); reflexivity.
  - exists [url].
    cbn [request_loop Nat.add andb Z.ltb Z.compare Z.add Pos.compare
           Pos.compare_cont].
    destruct (requests_get env (log ++ [url]) url) as [resp|e2];
      cbn [request_loop andb Z.ltb Z.compare Z.add Pos.compare
             Pos.compare_cont read_local rbind];
      rewrite <- app_assoc; [destruct (raise_for_status resp)|]; reflexivity.
Qed.

(** The driver's loop skips a tune whose fetch raises [HTTPError]. *)
Lemma for_each_skip (num : Z) (rest : list Z) (tune_list : nat) (w : World)
  (log' : list string) :
  get_soup env num (net w) = (Raise HTTPError, log') ->
  for_each env (num :: rest) tune_list w
  = for_each env rest tune_list {| net := log'; out := out w; heap := heap w |}.
Proof.
  intros H. cbn [for_each]. unfold bind at 1. unfold try_, fetch.
  now rewrite H.
Qed.

(** C2.  When the first request for a tune fails, [get_soup] makes exactly
    one more request for it and none after that.  If the second request
    fails as well, [get_soup] raises [HTTPError], the exception for which
    the batch driver skips the tune and continues; if it is answered, the
    outcome is the one of the status check on that answer. *)
Theorem get_soup_retries_once (tune_id : Z) (log : list string) (e1 : exn) :
  requests_get env log (url_of tune_id) = Raise e1 ->
  let url := url_of tune_id in
  snd (get_soup env tune_id log) = (log ++ [url; url])%list
  /\ match requests_get env (log ++ [url]) url with
     | Raise _ =>
         fst (get_soup env tune_id log) = Raise HTTPError
         /\ forall rest tune_list printed objects,
             for_each env (tune_id :: rest) tune_list
                      {| net := log; out := printed; heap := objects |}
             = for_each env rest tune_list
                        {| net := (log ++ [url; url])%list;
                           out := printed; heap := objects |}
     | Ok resp =>
         fst (get_soup env tune_id log)
         = match raise_for_status resp with
           | Raise _ => Raise HTTPError
           | Ok _ => BeautifulSoup env (text resp)
           end
     end.
Proof.
  intros H1 url. change (url_of tune_id) with url in H1.
  assert (Hrun : get_soup env tune_id log
                 = (match requests_get env (log ++ [url]) url with
                    | Raise _ => Raise HTTPError
                    | Ok resp =>
                        match raise_for_status resp with
                        | Raise _ => Raise HTTPError
                        | Ok _ => BeautifulSoup env (text resp)
                        end
                    end, (log ++ [url; url])%list)).
  { unfold get_soup. change (tunes_url ++ PyStr.str tune_id) with url.
    cbn [request_loop andb Z.ltb Z.compare]. rewrite H1.
    cbn [request_loop Nat.add andb Z.ltb Z.compare Z.add Pos.compare
           Pos.compare_cont].
    destruct (requests_get env (log ++ [url]) url) as [resp|e2];
      cbn [request_loop andb Z.ltb Z.compare Z.add Pos.compare
             Pos.compare_cont read_local rbind];
      rewrite <- app_assoc; [destruct (raise_for_status resp)|]; reflexivity. }
  split; [now rewrite Hrun|].
  destruct (requests_get env (log ++ [url]) url) as [resp|e2] eqn:H2.
  - now rewrite Hrun.
  - split; [now rewrite Hrun|].
    intros rest tune_list printed objects.
    now apply for_each_skip.
Qed.

End Fetcher.

Lemma get_soup_retries_once_witness :
  let url := url_of 7 in
  snd (get_soup env_offline 7 []) = [url; url]
  /\ fst (get_soup env_offline 7 []) = Raise HTTPError
  /\ forall rest tune_list printed objects,
      for_each env_offline (7 :: rest) tune_list
               {| net := []; out := printed; heap := objects |}
      = for_each env_offline rest tune_list
                 {| net := [url; url]; out := printed; heap := objects |}.
Proof.
  exact (get_soup_retries_once env_offline 7 [] ConnectionError eq_refl).
Defined.

(** ** The batch driver *)

Section Heap.

Context {A : Type}.

Lemma nth_error_set_nth (l : list A) (i : nat) (x y : A) :
  nth_error l i = Some y -> nth_error (set_nth l i x) i = Some x.
Proof.
  revert i. induction l as [|z l IH]; intros [|i]; simpl;
    try discriminate; auto.
Qed.

Lemma set_nth_twice (l : list A) (i : nat) (x y : A) :
  set_nth (set_nth l i x) i y = set_nth l i y.
Proof.
  revert i. induction l as [|z l IH]; intros [|i]; simpl;
    try reflexivity. now rewrite IH.
Qed.

Lemma set_nth_same (l : list A) (i : nat) (x : A) :
  nth_error l i = Some x -> set_nth l i x = l.
Proof.
  revert i. induction l as [|z l IH]; intros [|i]; simpl;
    try discriminate; try reflexivity.
  - now intros [= ->].
  - intros H. now rewrite IH.
Qed.

Lemma set_nth_last (l : list A) (x y : A) :
  set_nth (l ++ [y]) (List.length l) x = (l ++ [x])%list.
Proof. induction l as [|z l IH]; simpl; [reflexivity | now rewrite IH]. Qed.

Lemma nth_error_last (l : list A) (y : A) :
  nth_error (l ++ [y]) (List.length l) = Some y.
Proof. induction l as [|z l IH]; simpl; auto. Qed.

End Heap.

Section Driver.

Variable env : Env.

Lemma strain_soup_id (soup : Node) (num : Z) (t : TuneRecord) :
  strain_soup soup num = Ok t -> id t = num.
Proof.
  unfold strain_soup. destruct (parse_h1 soup) as [ty nm].
  destruct (parse_stats soup) as [rw|e]; [|discriminate].
  cbn [rbind]. destruct (parse_paragraphs soup) as [[[al co] se] bo].
  now intros [= <-].
Qed.

(** One round of the loop for a tune that is fetched and extracted: its
    record is appended to the list object. *)
Lemma for_each_append (num : Z) (rest : list Z) (tune_list : nat) (w : World)
  (soup : Node) (log' : list string) (t : TuneRecord)
  (items : list TuneRecord) :
  get_soup env num (net w) = (Ok soup, log') ->
  strain_soup soup num = Ok t ->
  nth_error (heap w) tune_list = Some (PyList items) ->
  for_each env (num :: rest) tune_list w
  = for_each env rest tune_list
             {| net := log'; out := out w;
                heap := set_nth (heap w) tune_list (PyList (items ++ [t])) |}.
Proof.
  intros Hget Hstrain Hlist. cbn [for_each].
  unfold bind at 1. unfold try_, fetch. rewrite Hget.
  unfold bind at 1. unfold lift. rewrite Hstrain.
  unfold bind at 1. unfold append. cbn [heap net out]. now rewrite Hlist.
Qed.

(** A round whose fetch or extraction raises anything else ends the loop
    with that exception. *)
Lemma for_each_extraction_raises (num : Z) (rest : list Z) (tune_list : nat)
  (w : World) (soup : Node) (log' : list string) (e : exn) :
  get_soup env num (net w) = (Ok soup, log') ->
  strain_soup soup num = Raise e ->
  for_each env (num :: rest) tune_list w
  = (Raise e, {| net := log'; out := out w; heap := heap w |}).
Proof.
  intros Hget Hstrain. cbn [for_each].
  unfold bind at 1. unfold try_, fetch. rewrite Hget.
  unfold bind at 1. unfold lift. now rewrite Hstrain.
Qed.

(** [get_soup] raises [HTTPError], or what the parser raised on the text
    of an answer. *)
Lemma get_soup_raises (tune_id : Z) (log : list string) (e : exn) :
  fst (get_soup env tune_id log) = Raise e ->
  e = HTTPError \/ exists resp, BeautifulSoup env (text resp) = Raise e.
Proof.
  unfold get_soup.
  destruct (request_loop env (tunes_url ++ PyStr.str tune_id) 2 0 true None log)
    as [[resp|] log'].
  - cbn [read_local rbind]. destruct (raise_for_status resp); cbn.
    + intros H. right. now exists resp.
    + intros [= <-]. now left.
  - cbn. intros [= <-]. now left.
Qed.

(** A round whose fetch raises anything but [HTTPError] ends the loop with
    that exception. *)
Lemma for_each_fetch_raises (num : Z) (rest : list Z) (tune_list : nat)
  (w : World) (log' : list string) (e : exn) :
  get_soup env num (net w) = (Raise e, log') ->
  e <> HTTPError ->
  for_each env (num :: rest) tune_list w
  = (Raise e, {| net := log'; out := out w; heap := heap w |}).
Proof.
  intros Hget He. cbn [for_each].
  unfold bind at 1. unfold try_, fetch. rewrite Hget.
  destruct e; try reflexivity. congruence.
Qed.

Lemma exn_is_HTTPError (e : exn) : {e = HTTPError} + {e <> HTTPError}.
Proof. destruct e; (now left) || (right; discriminate). Qed.

Lemma comprehension_raises {A B : Type} (f : A -> result B) (l : list A)
  (e : exn) :
  comprehension f l = Raise e -> exists x, In x l /\ f x = Raise e.
Proof.
  induction l as [|x l IH]; simpl; [discriminate|].
  destruct (f x) as [y|e'] eqn:Hx; cbn [rbind].
  - destruct (comprehension f l) as [ys|e'']; cbn [rbind]; [discriminate|].
    intros [= ->]. destruct (IH eq_refl) as (x' & Hin & Hx').
    exists x'. auto.
  - intros [= ->]. exists x. auto.
Qed.

Lemma int_raises (v : string) (e : exn) :
  PyStr.int v = Raise e -> e = ValueError.
Proof.
  unfold PyStr.int.
  destruct (match PyStr.drop_while PyStr.is_space v with
            | String "+" r => (1, r)
            | String "-" r => (-1, r)
            | _ => (1, PyStr.drop_while PyStr.is_space v)
            end) as [sign s2].
  destruct (PyStr.scan_digits 0 0 false false s2) as [[[n digits] rest]|];
    [destruct (PyStr.int_max_str_digits <? Z.of_nat digits);
     [|destruct (PyStr.is_empty (PyStr.drop_while PyStr.is_space rest))]|];
    congruence.
Qed.

(** The exceptions that leave the extraction of a page: those of the
    related-tunes extractor. *)
Lemma strain_soup_raises (soup : Node) (num : Z) (e : exn) :
  strain_soup soup num = Raise e ->
  e = ValueError \/ e = KeyError "data-tuneid".
Proof.
  unfold strain_soup. destruct (parse_h1 soup) as [ty nm].
  destruct (parse_stats soup) as [rw|e'] eqn:Hstats; cbn [rbind].
  - destruct (parse_paragraphs soup) as [[[al co] se] bo]. discriminate.
  - intros [= ->]. revert Hstats. unfold parse_stats.
    destruct (Bs4.findAll_on (Bs4.find (Bs4.has_class "stats") soup)
                             (Bs4.named "a")) as [links|e'] eqn:Hlinks;
      cbn [rbind].
    + destruct (comprehension _ links) as [ids|e'] eqn:Hc; [discriminate|].
      apply comprehension_raises in Hc as (tune & _ & Htune).
      assert (He' : e' = TypeError \/ e' = ValueError
                    \/ e' = KeyError "data-tuneid").
      { revert Htune. unfold Bs4.getitem.
        destruct tune as [s|tag cl attrs cs]; cbn [rbind].
        - intros [= <-]. auto.
        - destruct (List.find _ attrs); cbn [rbind].
          + intros H. apply int_raises in H. auto.
          + intros [= <-]. auto. }
      destruct He' as [-> | [-> | ->]]; [discriminate | |]; intros [= <-]; auto.
    + destruct (Bs4.find (Bs4.has_class "stats") soup); [discriminate|].
      cbn in Hlinks. injection Hlinks as <-. discriminate.
Qed.

(** What the loop leaves behind, whether it finishes or raises: the list
    object has grown at its end by the records extracted, in their order,
    nothing was printed, no other object was touched and requests were only
    added. *)
Lemma for_each_extends (nums : list Z) (tune_list : nat) :
  forall (w : World) (items : list TuneRecord) (r : result unit) (w' : World),
    nth_error (heap w) tune_list = Some (PyList items) ->
    for_each env nums tune_list w = (r, w') ->
    heap w' = set_nth (heap w) tune_list
                      (PyList (items ++ extracted env nums (net w)))
    /\ out w' = out w
    /\ (exists more,
           net w' = (net w ++ more)%list
           /\ match nums with
              | [] => more = []
              | num :: _ => exists later, more = url_of num :: later
              end)
    /\ Forall (fun t => In (id t) nums) (extracted env nums (net w)).
Proof.
  induction nums as [|num rest IH]; intros w items r w' Hlist Hrun.
  - cbn in Hrun. injection Hrun as <- <-. cbn [extracted].
    rewrite app_nil_r. repeat split; auto.
    + now rewrite set_nth_same.
    + exists []. now rewrite app_nil_r.
  - destruct (get_soup_log env num (net w)) as [m1 Hm1].
    cbn [extracted].
    destruct (get_soup env num (net w)) as [[soup|e] log'] eqn:Hget;
      cbn [snd] in Hm1.
    + destruct (strain_soup soup num) as [t|e] eqn:Hstrain.
      * rewrite (for_each_append _ _ _ _ _ _ _ _ Hget Hstrain Hlist) in Hrun.
        apply IH with (items := (items ++ [t])%list) in Hrun;
          [|cbn [heap]; now apply nth_error_set_nth with (y := PyList items)].
        destruct Hrun as (Hheap & Hout & (more & Hnet & _) & Hids).
        cbn [heap out net] in Hheap, Hout, Hnet, Hids.
        rewrite Hheap, set_nth_twice, <- app_assoc.
        repeat split; auto.
        -- exists (url_of num :: m1 ++ more)%list. split.
           ++ rewrite Hnet, Hm1. now rewrite <- app_assoc.
           ++ now exists (m1 ++ more)%list.
        -- constructor.
           ++ left. symmetry. now apply strain_soup_id with (soup := soup).
           ++ eapply Forall_impl; [|exact Hids]. intros a Ha. now right.
      * rewrite (for_each_extraction_raises _ _ _ _ _ _ _ Hget Hstrain) in Hrun.
        injection Hrun as <- <-. cbn [heap out net]. rewrite app_nil_r.
        repeat split; auto; [now rewrite set_nth_same|].
        exists (url_of num :: m1). split; [exact Hm1 | now exists m1].
    + destruct (exn_is_HTTPError e) as [-> | He].
      * rewrite (for_each_skip env _ _ _ _ _ Hget) in Hrun.
        apply IH with (items := items) in Hrun; [|exact Hlist].
        destruct Hrun as (Hheap & Hout & (more & Hnet & _) & Hids).
        cbn [heap out net] in Hheap, Hout, Hnet, Hids.
        repeat split; auto.
        -- exists (url_of num :: m1 ++ more)%list. split.
           ++ rewrite Hnet, Hm1. now rewrite <- app_assoc.
           ++ now exists (m1 ++ more)%list.
        -- eapply Forall_impl; [|exact Hids]. intros a Ha. now right.
      * rewrite (for_each_fetch_raises _ _ _ _ _ _ Hget He) in Hrun.
        injection Hrun as <- <-. cbn [heap out net].
        assert (Hnone : match e with
                        | HTTPError => extracted env rest log'
                        | _ => []
                        end = []) by (destruct e; congruence).
        rewrite Hnone, app_nil_r.
        repeat split; auto; [now rewrite set_nth_same|].
        exists (url_of num :: m1). split; [exact Hm1 | now exists m1].
Qed.

Lemma range_three (start : Z) :
  range start (start + 3) = [start; start + 1; start + 2].
Proof.
  unfold range. replace (start + 3 - start) with 3 by lia.
  change (Z.to_nat 3) with 3%nat. cbn [seq map Z.of_nat Pos.of_succ_nat Pos.succ].
  now rewrite Z.add_0_r.
Qed.

(** The call once [tune_list] is bound to a list object: the loop, then
    the report, then the reference. *)
Lemma get_session_tunes_body (pages start : Z) (library : option nat)
  (w w0 : World) (tune_list : nat) :
  (library = None /\ tune_list = List.length (heap w)
   /\ w0 = {| net := net w; out := out w; heap := heap w ++ [PyList []] |})
  \/ (library = Some tune_list /\ w0 = w
      /\ exists items, nth_error (heap w) tune_list = Some (PyList items)) ->
  get_session_tunes env pages start library w
  = match for_each env (range start (start + pages)) tune_list w0 with
    | (Ok _, w1) =>
        match nth_error (heap w1) tune_list with
        | Some (PyList items) =>
            (Ok tune_list,
             {| net := net w1;
                out := out w1 ++ [report (Z.of_nat (List.length items)) start
                                         (start + pages - 1)];
                heap := heap w1 |})
        | _ => (Raise TypeError, w1)
        end
    | (Raise e, w1) => (Raise e, w1)
    end.
Proof.
  intros [(-> & -> & ->) | (-> & -> & items & Hlist)];
    unfold get_session_tunes; unfold bind at 1.
  - unfold new_list at 1. unfold bind at 1.
    destruct (for_each env _ _ _) as [[u|e] w1]; [|reflexivity].
    unfold bind at 1. unfold len at 1.
    destruct (nth_error (heap w1) _) as [[its|ty]|]; reflexivity.
  - unfold bind at 1. unfold try_, bind, type_is_list. rewrite Hlist.
    cbn [assert ret].
    destruct (for_each env _ _ _) as [[u|e] w1]; [|reflexivity].
    unfold len at 1.
    destruct (nth_error (heap w1) _) as [[its|ty]|]; reflexivity.
Qed.

(** A [library] that does not refer to a list fails the assertion, and the
    handler raises the error of the call in its place. *)
Lemma get_session_tunes_not_list (pages start : Z) (ref : nat) (w : World)
  (ty : string) :
  nth_error (heap w) ref = Some (PyOther ty) ->
  get_session_tunes env pages start (Some ref) w
  = (Raise (AssertionError "library must be a 1D list."), w).
Proof.
  intros Hobj. unfold get_session_tunes. unfold bind at 1. unfold bind at 1.
  unfold try_, bind, type_is_list. now rewrite Hobj.
Qed.

(** For a batch of three tunes from [start] in which the fetch of
    [start + 1] raises [HTTPError], the fetches of [start] and [start + 2]
    succeed and the extraction completes on both pages, a call without
    [library] returns a new list of exactly the two records, the one of
    [start] before the one of [start + 2], and prints the count 2 with the
    range from [start] to [start + 2]. *)
Theorem get_session_tunes_skips_failed_fetch
  (start : Z) (w : World) (soup1 soup3 : Node) (log1 log2 log3 : list string)
  (t1 t3 : TuneRecord) :
  get_soup env start (net w) = (Ok soup1, log1) ->
  get_soup env (start + 1) log1 = (Raise HTTPError, log2) ->
  get_soup env (start + 2) log2 = (Ok soup3, log3) ->
  strain_soup soup1 start = Ok t1 ->
  strain_soup soup3 (start + 2) = Ok t3 ->
  get_session_tunes env 3 start None w
  = (Ok (List.length (heap w)),
     {| net := log3;
        out := out w ++ [report 2 start (start + 2)];
        heap := heap w ++ [PyList [t1; t3]] |})
  /\ map id [t1; t3] = [start; start + 2].
Proof.
  intros Hget1 Hget2 Hget3 Hstrain1 Hstrain3. split.
  - rewrite (get_session_tunes_body 3 start None w _ (List.length (heap w)))
      by (left; repeat split; reflexivity).
    rewrite range_three.
    rewrite (for_each_append start _ _ _ soup1 log1 t1 [])
      by (cbn [net heap]; auto using nth_error_last).
    cbn [net out heap app]. rewrite set_nth_last.
    rewrite (for_each_skip env (start + 1) _ _ _ log2) by exact Hget2.
    cbn [net out heap].
    rewrite (for_each_append (start + 2) _ _ _ soup3 log3 t3 [t1])
      by (cbn [net heap]; auto using nth_error_last).
    cbn [net out heap app for_each ret]. rewrite set_nth_last.
    rewrite nth_error_last.
    replace (start + 3 - 1) with (start + 2) by lia. reflexivity.
  - cbn [map]. now rewrite (strain_soup_id _ _ _ Hstrain1),
                 (strain_soup_id _ _ _ Hstrain3).
Qed.

(** C8.  A [library] that is not a list makes the call raise
    [AssertionError] at once: no page is requested, nothing is printed and
    no object is changed.  With a list the call passes the check and runs
    the loop on that very object: the first tune of the batch, if any, is
    requested, and whether the call returns or raises, the list holds the
    records it held before followed by the records extracted during the
    call, in their order; a call that returns gives back the reference it
    was given. *)
Theorem get_session_tunes_library_check
  (pages start : Z) (ref : nat) (w : World) (obj : PyObj) :
  nth_error (heap w) ref = Some obj ->
  match obj with
  | PyOther _ =>
      get_session_tunes env pages start (Some ref) w
      = (Raise (AssertionError "library must be a 1D list."), w)
  | PyList items =>
      heap (snd (get_session_tunes env pages start (Some ref) w))
      = set_nth (heap w) ref
                (PyList (items
                         ++ extracted env (range start (start + pages)) (net w)))
      /\ (exists more,
             net (snd (get_session_tunes env pages start (Some ref) w))
             = (net w ++ more)%list
             /\ match range start (start + pages) with
                | [] => more = []
                | num :: _ => exists later, more = url_of num :: later
                end)
      /\ match fst (get_session_tunes env pages start (Some ref) w) with
         | Ok returned => returned = ref
         | Raise _ =>
             out (snd (get_session_tunes env pages start (Some ref) w))
             = out w
         end
  end.
Proof.
  intros Hobj. destruct obj as [items|ty].
  - rewrite (get_session_tunes_body pages start (Some ref) w w ref)
      by (right; eauto).
    destruct (for_each env (range start (start + pages)) ref w)
      as [r1 w1] eqn:Hrun.
    destruct (for_each_extends _ _ _ _ _ _ Hobj Hrun)
      as (Hheap & Hout & Hnet & _).
    destruct r1 as [u|e].
    + assert (Hlist : nth_error (heap w1) ref
                      = Some (PyList (items
                                      ++ extracted env
                                           (range start (start + pages))
                                           (net w))))
        by (rewrite Hheap; eapply nth_error_set_nth; exact Hobj).
      rewrite Hlist. cbn [fst snd heap net]. auto.
    + cbn [fst snd]. auto.
  - now apply get_session_tunes_not_list with (ty := ty).
Qed.

(** C9 (amended).  A call that returns has printed one line.  The list it
    returns holds the records it held when the call started followed by
    the records extracted during the call; the count in the line is the
    length of that list, the number of records held before plus the number
    extracted, and the range in it runs from [start] to
    [start + pages - 1] whatever was skipped. *)
Theorem get_session_tunes_report
  (pages start : Z) (library : option nat) (w : World) (ref : nat)
  (w' : World) :
  get_session_tunes env pages start library w = (Ok ref, w') ->
  nth_error (heap w') ref
  = Some (PyList (initial_records library w
                  ++ extracted env (range start (start + pages)) (net w)))
  /\ out w'
     = (out w
        ++ [report (Z.of_nat (List.length (initial_records library w))
                    + Z.of_nat
                        (List.length
                           (extracted env (range start (start + pages))
                                      (net w))))
                   start (start + pages - 1)])%list.
Proof.
  intros Hcall.
  assert (Hbody : exists tune_list w0,
             nth_error (heap w0) tune_list
             = Some (PyList (initial_records library w))
             /\ out w0 = out w /\ net w0 = net w
             /\ get_session_tunes env pages start library w
                = match for_each env (range start (start + pages)) tune_list w0 with
                  | (Ok _, w1) =>
                      match nth_error (heap w1) tune_list with
                      | Some (PyList items) =>
                          (Ok tune_list,
                           {| net := net w1;
                              out := out w1
                                     ++ [report (Z.of_nat (List.length items))
                                                start (start + pages - 1)];
                              heap := heap w1 |})
                      | _ => (Raise TypeError, w1)
                      end
                  | (Raise e, w1) => (Raise e, w1)
                  end).
  { destruct library as [lref|].
    - cbn [initial_records].
      destruct (nth_error (heap w) lref) as [[items|ty]|] eqn:Hobj.
      + exists lref, w. repeat split; auto.
        apply get_session_tunes_body. right. eauto.
      + rewrite (get_session_tunes_not_list pages start lref w ty Hobj) in Hcall.
        discriminate.
      + exfalso. revert Hcall. unfold get_session_tunes.
        unfold bind at 1. unfold bind at 1.
        unfold try_, bind, type_is_list. rewrite Hobj. discriminate.
    - exists (List.length (heap w)),
        {| net := net w; out := out w; heap := heap w ++ [PyList []] |}.
      cbn [initial_records heap out net].
      repeat split; auto using nth_error_last.
      apply get_session_tunes_body. left. auto. }
  destruct Hbody as (tune_list & w0 & Hlist & Hout0 & Hnet0 & Hbody).
  rewrite Hbody in Hcall.
  destruct (for_each env (range start (start + pages)) tune_list w0)
    as [[u|e] w1] eqn:Hrun; [|discriminate].
  destruct (for_each_extends _ _ _ _ _ _ Hlist Hrun) as (Hheap & Hout & _).
  rewrite Hnet0 in Hheap.
  assert (Hfinal : nth_error (heap w1) tune_list
                   = Some (PyList (initial_records library w
                                   ++ extracted env
                                        (range start (start + pages)) (net w))))
    by (rewrite Hheap; eapply nth_error_set_nth; exact Hlist).
  rewrite Hfinal in Hcall. injection Hcall as <- <-.
  cbn [heap out]. split; [exact Hfinal|].
  rewrite Hout, Hout0, length_app, Nat2Z.inj_add. reflexivity.
Qed.

End Driver.

Lemma get_session_tunes_skips_failed_fetch_witness :
  get_session_tunes (env_serving 2 doc_the_tune_reel) 3 1 None empty_world
  = (Ok 0%nat,
     {| net := [url_of 1; url_of 2; url_of 3];
        out := ["Obtained data for 2 tunes (IDs 1-3)."];
        heap := [PyList [the_tune_reel 1; the_tune_reel 3]] |})
  /\ map id [the_tune_reel 1; the_tune_reel 3] = [1; 3].
Proof.
  exact (get_session_tunes_skips_failed_fetch
           (env_serving 2 doc_the_tune_reel) 1 empty_world
           doc_the_tune_reel doc_the_tune_reel
           [url_of 1] [url_of 1; url_of 2] [url_of 1; url_of 2; url_of 3]
           (the_tune_reel 1) (the_tune_reel 3)
           eq_refl eq_refl eq_refl eq_refl eq_refl).
Defined.

(** C1.  With the fetches as the claim puts them, the fetches of tunes 1
    and 3 succeeding and the one of tune 2 raising [HTTPError], a call
    does not always return two records: on a page whose [stats] region has
    a link without [data-tuneid] the [KeyError] of [parse_stats] leaves
    [strain_soup] and the call, which returns nothing. *)
Lemma get_session_tunes_extraction_raises :
  fst (get_soup (env_serving 2 doc_stats_link_without_id) 1 [])
  = Ok doc_stats_link_without_id
  /\ fst (get_soup (env_serving 2 doc_stats_link_without_id) 2 [url_of 1])
     = Raise HTTPError
  /\ fst (get_soup (env_serving 2 doc_stats_link_without_id) 3
                   [url_of 1; url_of 2])
     = Ok doc_stats_link_without_id
  /\ get_session_tunes (env_serving 2 doc_stats_link_without_id) 3 1 None
                       empty_world
     = (Raise (KeyError "data-tuneid"),
        {| net := [url_of 1]; out := []; heap := [PyList []] |}).
Proof. repeat split; reflexivity. Qed.

Lemma get_session_tunes_library_check_witness :
  get_session_tunes (env_serving 2 doc_the_tune_reel) 3 1 (Some 0%nat)
                    world_with_tuple
  = (Raise (AssertionError "library must be a 1D list."), world_with_tuple)
  /\ (heap (snd (get_session_tunes (env_serving 2 doc_the_tune_reel) 3 1
                                   (Some 0%nat) world_with_library))
      = [PyList [the_tune_reel 40; the_tune_reel 1; the_tune_reel 3]]
      /\ (exists more,
             net (snd (get_session_tunes (env_serving 2 doc_the_tune_reel) 3 1
                                         (Some 0%nat) world_with_library))
             = ([] ++ more)%list
             /\ exists later, more = url_of 1 :: later)
      /\ 0%nat = 0%nat).
Proof.
  split.
  - exact (get_session_tunes_library_check
             (env_serving 2 doc_the_tune_reel) 3 1 0%nat world_with_tuple
             (PyOther "tuple") eq_refl).
  - exact (get_session_tunes_library_check
             (env_serving 2 doc_the_tune_reel) 3 1 0%nat world_with_library
             (PyList [the_tune_reel 40]) eq_refl).
Defined.

Example get_session_tunes_extends_library :
  get_session_tunes (env_serving 2 doc_the_tune_reel) 3 1 (Some 0%nat)
                    world_with_library
  = (Ok 0%nat,
     {| net := [url_of 1; url_of 2; url_of 3];
        out := ["Obtained data for 3 tunes (IDs 1-3)."];
        heap := [PyList [the_tune_reel 40; the_tune_reel 1; the_tune_reel 3]] |})
  /\ extracted (env_serving 2 doc_the_tune_reel) [1; 2; 3] []
     = [the_tune_reel 1; the_tune_reel 3].
Proof. split; reflexivity. Qed.

(** The claim of C9 as stated fails: given a list that holds one record, a
    call that extracts one record reports the count 2. *)
Lemma get_session_tunes_counts_library :
  get_session_tunes (env_serving 2 doc_the_tune_reel) 1 5 (Some 0%nat)
                    world_with_library
  = (Ok 0%nat,
     {| net := [url_of 5];
        out := ["Obtained data for 2 tunes (IDs 5-5)."];
        heap := [PyList [the_tune_reel 40; the_tune_reel 5]] |})
  /\ initial_records (Some 0%nat) world_with_library = [the_tune_reel 40]
  /\ extracted (env_serving 2 doc_the_tune_reel) (range 5 (5 + 1)) []
     = [the_tune_reel 5]
  /\ report 1 5 5 <> "Obtained data for 2 tunes (IDs 5-5).".
Proof. repeat split; try reflexivity. discriminate. Qed.

Lemma get_session_tunes_report_witness :
  nth_error [PyList [the_tune_reel 40; the_tune_reel 1; the_tune_reel 3]]
            0%nat
  = Some (PyList ([the_tune_reel 40] ++ [the_tune_reel 1; the_tune_reel 3]))
  /\ ["Obtained data for 3 tunes (IDs 1-3)."]
     = ([] ++ [report (1 + 2) 1 3])%list.
Proof.
  exact (get_session_tunes_report
           (env_serving 2 doc_the_tune_reel) 3 1 (Some 0%nat)
           world_with_library 0%nat
           {| net := [url_of 1; url_of 2; url_of 3];
              out := ["Obtained data for 3 tunes (IDs 1-3)."];
              heap := [PyList [the_tune_reel 40; the_tune_reel 1;
                               the_tune_reel 3]] |}
           eq_refl).
Defined.

(** ** The persistence merge *)

Section Merge.

Lemma count_occ_index_app (a b : DataFrame) (i : Z) :
  count_occ Z.eq_dec (index (a ++ b)%list) i
  = (count_occ Z.eq_dec (index a) i + count_occ Z.eq_dec (index b) i)%nat.
Proof. unfold index. now rewrite map_app, count_occ_app. Qed.

Lemma concat_pair (a b : DataFrame) : concat [a; b] = (a ++ b)%list.
Proof. unfold concat. cbn. now rewrite app_nil_r. Qed.

(** The merge puts the rows of the batch after the rows of the file and
    drops none: merged a second time, into the result of the first merge,
    every index label of the batch labels at least two rows. *)
Lemma concat_twice_duplicates (library indexed_df : DataFrame) :
  let once := concat [library; indexed_df] in
  let twice := concat [once; indexed_df] in
  once = (library ++ indexed_df)%list
  /\ twice = (library ++ indexed_df ++ indexed_df)%list
  /\ List.length twice = (List.length once + List.length indexed_df)%nat
  /\ Forall (fun i =>
               count_occ Z.eq_dec (index twice) i
               = (count_occ Z.eq_dec (index once) i
                  + count_occ Z.eq_dec (index indexed_df) i)%nat
               /\ (2 <= count_occ Z.eq_dec (index twice) i)%nat)
            (index indexed_df).
Proof.
  cbv zeta. rewrite !concat_pair.
  split; [reflexivity|].
  split; [now rewrite <- app_assoc|].
  split; [now rewrite length_app|].
  apply Forall_forall. intros i Hi.
  rewrite !count_occ_index_app.
  split; [reflexivity|].
  apply (count_occ_In Z.eq_dec) in Hi. lia.
Qed.

(** From the records of a batch: a batch that holds a record is indexed by
    [id] and merged; an empty one has no [id] column to index by. *)
Lemma combine_twice (library : DataFrame) (t : TuneRecord)
  (batch : list TuneRecord) :
  let rows := map (fun t => (id t, columns_of t)) (t :: batch) in
  combine library (t :: batch) = Ok (library ++ rows)%list
  /\ combine (library ++ rows)%list (t :: batch)
     = Ok (library ++ rows ++ rows)%list.
Proof.
  cbv zeta. unfold combine. cbn [set_index_id rbind].
  rewrite !concat_pair. now rewrite <- app_assoc.
Qed.

Lemma combine_empty (library : DataFrame) :
  combine library [] = Raise (KeyError "None of ['id'] are in the columns").
Proof. reflexivity. Qed.

(** A label met twice is refused by the write. *)
Lemma is_unique_shared_label (a b : list Z) (i : Z) :
  In i a -> In i b -> is_unique (a ++ b) = false.
Proof.
  intros Ha Hb. induction a as [|x a IH]; [contradiction|].
  cbn [is_unique List.app].
  destruct Ha as [->|Ha].
  - replace (List.existsb (Z.eqb i) (a ++ b)) with true; [reflexivity|].
    symmetry. apply List.existsb_exists. exists i.
    split; [apply in_or_app; now right | apply Z.eqb_refl].
  - rewrite (IH Ha). apply andb_false_r.
Qed.

(** The frame merged from a file that already holds a tune of the batch is
    not written: [to_json] raises [ValueError]. *)
Lemma to_json_refuses_known_tune (library : DataFrame) (t : TuneRecord)
  (batch : list TuneRecord) (combined_data : DataFrame) :
  In (id t) (index library) ->
  combine library (t :: batch) = Ok combined_data ->
  to_json combined_data = Raise ValueError.
Proof.
  intros Hknown Hmerge.
  destruct (combine_twice library t batch) as [Honce _].
  cbv zeta in Honce. rewrite Honce in Hmerge.
  injection Hmerge as <-.
  unfold to_json, index. rewrite map_app.
  rewrite (is_unique_shared_label _ _ (id t) Hknown); [reflexivity|].
  now left.
Qed.

(** C7.  A batch merged a second time is not persisted with its rows
    doubled.  The first round of [main] on an empty file writes the rows of
    the tunes of the batch that were served.  When [main] runs again on the
    file so written, the merge of its first round does hold every row of
    the batch twice, the second time after the first, but [to_json] refuses
    that frame with [ValueError]: the run ends there and the file keeps
    one row for each tune. *)
Theorem main_repeated_batch_not_saved :
  main_round (env_serving 2 doc_the_tune_reel) batch_size starting_point []
             empty_world
  = (Ok tt, frame_after_first_round,
     {| net := map url_of (range 1 251);
        out := ["Obtained data for 249 tunes (IDs 1-250)."];
        heap := [PyList (map the_tune_reel served_in_first_batch)] |})
  /\ fst (merge_batch (env_serving 2 doc_the_tune_reel) batch_size
                      starting_point frame_after_first_round empty_world)
     = Ok (frame_after_first_round ++ frame_after_first_round)%list
  /\ main (env_serving 2 doc_the_tune_reel) frame_after_first_round
          empty_world
     = (Raise ValueError, frame_after_first_round,
        {| net := map url_of (range 1 251);
           out := ["Obtained data for 249 tunes (IDs 1-250)."];
           heap := [PyList (map the_tune_reel served_in_first_batch)] |})
  /\ is_unique (index frame_after_first_round) = true
  /\ List.length frame_after_first_round = 249%nat.
Proof. repeat split; vm_compute; reflexivity. Qed.

End Merge.

(** * Further properties *)

(** ** The fetcher *)

Section FetcherOutcomes.

Variable env : Env.

(** X1.  What the retry loop keeps, for any bound of two iterations or
    more: the answer to the first request if it is answered, otherwise the
    answer to the second, otherwise nothing; one request is made in the
    first case and two in the others. *)
Theorem request_loop_keeps_first_answer
  (url : string) (log : list string) (fuel : nat) :
  request_loop env url (2 + fuel) 0 true None log
  = match requests_get env log url with
    | Ok resp => (Some resp, (log ++ [url])%list)
    | Raise _ =>
        match requests_get env (log ++ [url]) url with
        | Ok resp => (Some resp, (log ++ [url; url])%list)
        | Raise _ => (None, (log ++ [url; url])%list)
        end
    end.
Proof.
  cbn [request_loop Nat.add andb Z.ltb Z.compare].
  destruct (requests_get env log url) as [resp|e1].
  - destruct fuel; reflexivity.
  - cbn [request_loop Nat.add andb Z.ltb Z.compare Z.add Pos.compare
           Pos.compare_cont].
    destruct fuel;
      cbn [request_loop Nat.add andb Z.ltb Z.compare Z.add Pos.compare
             Pos.compare_cont];
      destruct (requests_get env (log ++ [url]) url) as [resp|e2];
      rewrite <- app_assoc; cbn; try reflexivity; destruct fuel; reflexivity.
Qed.

(** X2.  A first request that is answered is not repeated, whatever the
    status of the answer: a status from 400 to 599 raises [HTTPError], any
    other status gives the parsed text of the answer. *)
Theorem get_soup_answered_at_once (tune_id : Z) (log : list string)
  (resp : Response) :
  requests_get env log (url_of tune_id) = Ok resp ->
  get_soup env tune_id log
  = (if (400 <=? status_code resp) && (status_code resp <? 600)
     then Raise HTTPError
     else BeautifulSoup env (text resp),
     (log ++ [url_of tune_id])%list).
Proof.
  intros H. rewrite (get_soup_first_answered env tune_id log resp H).
  unfold raise_for_status.
  destruct ((400 <=? status_code resp) && (status_code resp <? 600));
    reflexivity.
Qed.

Lemma get_soup_requests (tune_id : Z) (log : list string) :
  snd (get_soup env tune_id log) = (log ++ [url_of tune_id])%list
  \/ snd (get_soup env tune_id log)
     = (log ++ [url_of tune_id; url_of tune_id])%list.
Proof.
  unfold get_soup.
  change (tunes_url ++ PyStr.str tune_id) with (url_of tune_id).
  cbn [request_loop andb Z.ltb Z.compare].
  destruct (requests_get env log (url_of tune_id)) as [resp|e1].
  - left. cbn [request_loop andb read_local rbind].
    destruct (raise_for_status resp); reflexivity.
  - right.
    cbn [request_loop Nat.add andb Z.ltb Z.compare Z.add Pos.compare
           Pos.compare_cont].
    destruct (requests_get env (log ++ [url_of tune_id]) (url_of tune_id))
      as [resp|e2];
      cbn [request_loop andb Z.ltb Z.compare Z.add Pos.compare
             Pos.compare_cont read_local rbind];
      rewrite <- app_assoc; [destruct (raise_for_status resp)|]; reflexivity.
Qed.

(** X3.  Whatever the network does, [get_soup] requests the page of its
    tune once or twice and nothing else, and it either raises [HTTPError]
    or ends as the parser does on the text of an answer to one of these
    requests: the only exceptions that leave it are [HTTPError] and those
    the parser raises. *)
Theorem get_soup_outcomes (tune_id : Z) (log : list string) :
  (snd (get_soup env tune_id log) = (log ++ [url_of tune_id])%list
   \/ snd (get_soup env tune_id log)
      = (log ++ [url_of tune_id; url_of tune_id])%list)
  /\ (fst (get_soup env tune_id log) = Raise HTTPError
      \/ exists resp,
           (requests_get env log (url_of tune_id) = Ok resp
            \/ requests_get env (log ++ [url_of tune_id]) (url_of tune_id)
               = Ok resp)
           /\ fst (get_soup env tune_id log)
              = BeautifulSoup env (text resp)).
Proof.
  split; [apply get_soup_requests|].
  unfold get_soup.
  change (tunes_url ++ PyStr.str tune_id) with (url_of tune_id).
  cbn [request_loop andb Z.ltb Z.compare].
  destruct (requests_get env log (url_of tune_id)) as [resp|e1] eqn:H1.
  - cbn [request_loop andb read_local rbind].
    destruct (raise_for_status resp); [|now left].
    right. exists resp. split; [now left | reflexivity].
  - cbn [request_loop Nat.add andb Z.ltb Z.compare Z.add Pos.compare
           Pos.compare_cont].
    destruct (requests_get env (log ++ [url_of tune_id]) (url_of tune_id))
      as [resp|e2] eqn:H2;
      cbn [request_loop andb Z.ltb Z.compare Z.add Pos.compare
             Pos.compare_cont read_local rbind]; [|now left].
    destruct (raise_for_status resp); [|now left].
    right. exists resp. split; [now right | reflexivity].
Qed.

End FetcherOutcomes.

(** An exception of the parser leaves [get_soup] and, not being an
    [HTTPError], the batch driver too. *)
Example get_soup_parser_raises :
  get_soup env_rejected_markup 1 [] = (Raise ParserRejectedMarkup, [url_of 1])
  /\ get_session_tunes env_rejected_markup 3 1 None empty_world
     = (Raise ParserRejectedMarkup,
        {| net := [url_of 1]; out := []; heap := [PyList []] |}).
Proof. split; reflexivity. Qed.

Lemma get_soup_answered_at_once_witness :
  get_soup (env_serving 2 doc_the_tune_reel) 1 []
  = (Ok doc_the_tune_reel, [url_of 1]).
Proof.
  exact (get_soup_answered_at_once (env_serving 2 doc_the_tune_reel) 1 []
           {| status_code := 200; text := "<!DOCTYPE html>" |} eq_refl).
Defined.

(** ** The count parser *)

Section CountValues.

Ltac ascii_cases c :=
  destruct c as [[] [] [] [] [] [] [] []]; try reflexivity; try discriminate.

Lemma digit_value_range (c : ascii) :
  PyStr.is_digit c = true -> 0 <= PyStr.digit_value c <= 9.
Proof.
  destruct c as [[] [] [] [] [] [] [] []]; try discriminate;
    intros _; vm_compute; split; discriminate.
Qed.

Lemma digit_in_class (c : ascii) :
  PyStr.is_digit c = true -> count_class c = true.
Proof. unfold count_class. now intros ->. Qed.

Lemma decimal_from_nonneg (d : string) :
  forall acc, 0 <= acc -> PyStr.forallb PyStr.is_digit d = true ->
              0 <= decimal_from acc d.
Proof.
  induction d as [|c d IH]; intros acc Hacc Hd; [exact Hacc|].
  simpl in Hd |- *. apply andb_true_iff in Hd as [Hc Hd].
  apply IH; [|exact Hd]. pose proof (digit_value_range c Hc). lia.
Qed.

(** Digits read after [acc] shift it by their number of places. *)
Lemma decimal_from_shift (d : string) :
  forall acc,
    decimal_from acc d
    = acc * 10 ^ Z.of_nat (String.length d) + decimal_from 0 d.
Proof.
  induction d as [|c d IH]; intros acc.
  - cbn. lia.
  - cbn [decimal_from String.length].
    rewrite (IH (acc * 10 + PyStr.digit_value c)),
            (IH (0 * 10 + PyStr.digit_value c)).
    rewrite Nat2Z.inj_succ, Z.pow_succ_r by lia. ring.
Qed.

Lemma decimal_from_append (a b : string) (acc : Z) :
  decimal_from acc (a ++ b) = decimal_from (decimal_from acc a) b.
Proof.
  revert acc. induction a as [|c a IH]; intros acc; [reflexivity|].
  cbn [append decimal_from]. apply IH.
Qed.

Lemma keep_every p (s : string) :
  PyStr.forallb p s = true -> keep p s = s.
Proof.
  induction s as [|c s IH]; simpl; [reflexivity|].
  intros H. apply andb_true_iff in H as [Hc Hs]. rewrite Hc. now rewrite IH.
Qed.

Lemma keep_append p (a b : string) : keep p (a ++ b) = keep p a ++ keep p b.
Proof.
  induction a as [|c a IH]; simpl; [reflexivity|].
  destruct (p c); simpl; now rewrite IH.
Qed.

Lemma forallb_weaken (p q : ascii -> bool) (s : string) :
  (forall c, p c = true -> q c = true) ->
  PyStr.forallb p s = true -> PyStr.forallb q s = true.
Proof.
  intros Hpq. induction s as [|c s IH]; simpl; [reflexivity|].
  intros H. apply andb_true_iff in H as [Hc Hs].
  now rewrite (Hpq c Hc), IH.
Qed.

Lemma forallb_app_string p (a b : string) :
  PyStr.forallb p (a ++ b) = PyStr.forallb p a && PyStr.forallb p b.
Proof.
  induction a as [|x a IH]; simpl; [reflexivity|].
  rewrite IH. now rewrite andb_assoc.
Qed.

Lemma existsb_first p (c : ascii) (s : string) :
  p c = true -> PyStr.existsb p (String c s) = true.
Proof. intros H. simpl. now rewrite H. Qed.

(** The decimal digits [str] writes. *)
Lemma string_of_uint_digits (d : Decimal.uint) :
  PyStr.forallb PyStr.is_digit (NilEmpty.string_of_uint d) = true.
Proof. induction d; simpl; auto. Qed.

Lemma string_of_uint_acc (d : Decimal.uint) :
  forall acc : positive,
    decimal_from (Z.pos acc) (NilEmpty.string_of_uint d)
    = Z.pos (Pos.of_uint_acc d acc).
Proof.
  induction d; intros acc; cbn [NilEmpty.string_of_uint decimal_from Pos.of_uint_acc];
    [reflexivity | rewrite <- IHd; f_equal; vm_compute PyStr.digit_value; lia ..].
Qed.

Lemma string_of_uint_value (d : Decimal.uint) :
  decimal_value (NilEmpty.string_of_uint d) = Z.of_N (Pos.of_uint d).
Proof.
  unfold decimal_value.
  induction d; cbn [NilEmpty.string_of_uint decimal_from Pos.of_uint Z.of_N];
    [reflexivity | exact IHd
    | rewrite <- string_of_uint_acc; reflexivity ..].
Qed.

Lemma str_nonneg (n : Z) :
  0 <= n ->
  PyStr.forallb PyStr.is_digit (PyStr.str n) = true
  /\ PyStr.str n <> ""
  /\ decimal_value (PyStr.str n) = n.
Proof.
  intros Hn. destruct n as [|p|p]; [repeat split; discriminate | | lia].
  unfold PyStr.str. cbn [Z.to_int NilZero.string_of_int].
  pose proof (Unsigned.to_uint_nonnil p) as Hnil.
  assert (Hs : NilZero.string_of_uint (Pos.to_uint p)
               = NilEmpty.string_of_uint (Pos.to_uint p))
    by (destruct (Pos.to_uint p); [congruence | reflexivity ..]).
  rewrite Hs. repeat split.
  - apply string_of_uint_digits.
  - destruct (Pos.to_uint p); [congruence | discriminate ..].
  - now rewrite string_of_uint_value, Unsigned.of_to.
Qed.

Lemma str_negative (p : positive) :
  PyStr.str (Z.neg p) = String "-" (PyStr.str (Z.pos p)).
Proof. reflexivity. Qed.

(** [int] reads back what [str] writes, up to the digit limit. *)
Lemma int_str (n : Z) :
  within_digit_limit (PyStr.str (Z.abs n)) = true ->
  PyStr.int (PyStr.str n) = Ok n.
Proof.
  intros Hlimit. destruct n as [|p|p].
  - reflexivity.
  - destruct (str_nonneg (Z.pos p)) as (Hd & Hne & Hv); [lia|].
    cbn [Z.abs] in Hlimit.
    now rewrite int_digits, Hlimit, Hv.
  - rewrite str_negative.
    destruct (str_nonneg (Z.pos p)) as (Hd & Hne & Hv); [lia|].
    cbn [Z.abs] in Hlimit. unfold within_digit_limit in Hlimit.
    apply Z.leb_le in Hlimit.
    unfold PyStr.int. cbn [PyStr.drop_while].
    change (PyStr.is_space "-") with false. cbv iota.
    rewrite (scan_digits_all (PyStr.str (Z.pos p)) 0 0 false Hd)
      by (right; exact Hne).
    cbn [PyStr.drop_while PyStr.is_empty Nat.add].
    assert ((PyStr.int_max_str_digits
             <? Z.of_nat (String.length (PyStr.str (Z.pos p)))) = false) as ->
        by (apply Z.ltb_ge; exact Hlimit).
    fold (decimal_value (PyStr.str (Z.pos p))). rewrite Hv. reflexivity.
Qed.

(** X4.  [parse_count] raises nothing and never returns a negative
    number. *)
Theorem parse_count_never_negative (text : string) :
  match parse_count text with
  | Ok (Some n) => 0 <= n
  | Ok None => True
  | Raise _ => False
  end.
Proof.
  rewrite parse_count_run.
  destruct (re_search_count text) as [run|]; [|exact I].
  destruct (PyStr.existsb PyStr.is_digit run
            && within_digit_limit (keep PyStr.is_digit run)); [|exact I].
  apply decimal_from_nonneg; [lia | apply keep_forallb].
Qed.

Lemma parse_count_str (pre post : string) (n : Z) :
  0 <= n ->
  within_digit_limit (PyStr.str n) = true ->
  PyStr.existsb count_class pre = false ->
  (exists c r, post = String c r /\ count_class c = false) \/ post = "" ->
  parse_count (pre ++ PyStr.str n ++ post) = Ok (Some n).
Proof.
  intros Hn Hlimit Hpre Hpost.
  destruct (str_nonneg n Hn) as (Hd & Hne & Hv).
  rewrite (parse_count_first_run pre (PyStr.str n) post); auto.
  - now rewrite (keep_every _ _ Hd), Hv.
  - exact (forallb_weaken _ _ _ digit_in_class Hd).
  - destruct (PyStr.str n) as [|c s]; [congruence|].
    simpl in Hd. apply andb_true_iff in Hd as [Hc _].
    now apply existsb_first.
  - now rewrite (keep_every _ _ Hd).
Qed.

(** X5.  [parse_count] reads back a count that [str] wrote: a non-negative
    number of no more digits than [int] accepts, printed in a text that has
    no digit and no comma before it, and none directly after it, is the
    count of the text. *)
Theorem parse_count_of_str (pre post : string) (n : Z) :
  0 <= n ->
  within_digit_limit (PyStr.str n) = true ->
  PyStr.existsb count_class pre = false ->
  (exists c r, post = String c r /\ count_class c = false) \/ post = "" ->
  parse_count (pre ++ PyStr.str n ++ post) = Ok (Some n).
Proof. apply parse_count_str. Qed.

(** X6.  A comma between two groups of digits is dropped: when the two
    groups together have no more digits than [int] accepts, the count is
    the number of the first group shifted by the length of the second,
    plus the number of the second. *)
Theorem parse_count_separator (pre a b post : string) :
  a <> "" ->
  PyStr.forallb PyStr.is_digit a = true ->
  PyStr.forallb PyStr.is_digit b = true ->
  within_digit_limit (a ++ b) = true ->
  PyStr.existsb count_class pre = false ->
  (exists c r, post = String c r /\ count_class c = false) \/ post = "" ->
  parse_count (pre ++ (a ++ "," ++ b) ++ post)
  = Ok (Some (decimal_value a * 10 ^ Z.of_nat (String.length b)
              + decimal_value b)).
Proof.
  intros Ha Hda Hdb Hlimit Hpre Hpost.
  assert (Hkeep : keep PyStr.is_digit (a ++ "," ++ b) = a ++ b).
  { rewrite !keep_append, (keep_every _ _ Hda), (keep_every _ _ Hdb).
    reflexivity. }
  rewrite (parse_count_first_run pre (a ++ "," ++ b) post); auto.
  - rewrite Hkeep. unfold decimal_value.
    now rewrite decimal_from_append, decimal_from_shift.
  - rewrite !forallb_app_string.
    rewrite (forallb_weaken _ _ _ digit_in_class Hda),
            (forallb_weaken _ _ _ digit_in_class Hdb).
    reflexivity.
  - destruct a as [|c a]; [congruence|].
    simpl in Hda. apply andb_true_iff in Hda as [Hc _].
    now apply existsb_first.
  - now rewrite Hkeep.
Qed.

End CountValues.

Lemma parse_count_of_str_witness :
  parse_count ("Recorded " ++ PyStr.str 1234 ++ " times") = Ok (Some 1234).
Proof.
  apply (parse_count_of_str "Recorded " " times" 1234).
  - lia.
  - reflexivity.
  - reflexivity.
  - left. exists " "%char, "times". split; reflexivity.
Defined.

Lemma parse_count_separator_witness :
  parse_count ("" ++ ("1" ++ "," ++ "234") ++ " recordings")
  = Ok (Some (decimal_value "1" * 10 ^ Z.of_nat (String.length "234")
              + decimal_value "234")).
Proof.
  apply (parse_count_separator "" "1" "234" " recordings").
  - discriminate.
  - reflexivity.
  - reflexivity.
  - reflexivity.
  - reflexivity.
  - left. exists " "%char, "recordings". split; reflexivity.
Defined.

(** ** The extractors on whole pages *)

Section Pages.

Lemma descendants_text_only (texts : list string) :
  Bs4.descendants (document (map NavigableString texts))
  = map NavigableString texts.
Proof.
  unfold document. cbn [Bs4.descendants].
  induction texts as [|t texts IH]; [reflexivity|].
  cbn [map flat_map Bs4.descendants app]. now rewrite IH.
Qed.

Lemma find_all_text_only (crit : Node -> bool) (texts : list string) :
  (forall s, crit (NavigableString s) = false) ->
  Bs4.find_all crit (document (map NavigableString texts)) = [].
Proof.
  intros Hcrit. unfold Bs4.find_all. rewrite descendants_text_only.
  induction texts as [|t texts IH]; [reflexivity|].
  cbn [map filter]. now rewrite Hcrit.
Qed.

Lemma find_text_only (crit : Node -> bool) (texts : list string) :
  (forall s, crit (NavigableString s) = false) ->
  Bs4.find crit (document (map NavigableString texts)) = None.
Proof.
  intros Hcrit. unfold Bs4.find. now rewrite find_all_text_only.
Qed.

(** X7.  A page that parses to text without a single tag gives the record
    of the defaults: ["Error"] for name and type, no aliases, no related
    tunes, and 0 for every count. *)
Theorem strain_soup_text_only (texts : list string) (tune_id : Z) :
  strain_soup (document (map NavigableString texts)) tune_id
  = Ok (default_record tune_id).
Proof.
  unfold strain_soup, parse_h1, parse_summary, parse_stats, parse_paragraphs,
    parse_tabs.
  rewrite !find_text_only by reflexivity.
  rewrite find_all_text_only by reflexivity.
  reflexivity.
Qed.

(** X8.  The extraction of a page fails only in the related-tunes
    extractor, with its [ValueError] or [KeyError]; when it succeeds, the
    record carries the identifier it was given and the values of the
    extractors. *)
Theorem strain_soup_outcome (soup : Node) (tune_id : Z) :
  match strain_soup soup tune_id with
  | Ok t =>
      id t = tune_id
      /\ parse_stats soup = Ok (set_pairings t)
      /\ parse_h1 soup = (type_ t, name t)
      /\ parse_paragraphs soup = (aliases t, collections t, sets t, books t)
      /\ parse_summary soup = recordings t
      /\ parse_tabs soup = tabs t
  | Raise e =>
      parse_stats soup = Raise e
      /\ (e = ValueError \/ e = KeyError "data-tuneid")
  end.
Proof.
  pose proof (strain_soup_raises soup tune_id) as Hexn.
  unfold strain_soup in *. destruct (parse_h1 soup) as [ty nm].
  destruct (parse_stats soup) as [rw|e]; cbn [rbind] in *.
  - destruct (parse_paragraphs soup) as [[[al co] se] bo]. cbn.
    repeat split; reflexivity.
  - split; [reflexivity | now apply Hexn].
Qed.

Lemma rstrip_prefix (s chars : string) :
  exists rest, s = PyStr.rstrip s chars ++ rest.
Proof.
  induction s as [|c s [rest IH]]; [now exists ""|].
  cbn [PyStr.rstrip]. destruct (PyStr.rstrip s chars) as [|d r] eqn:E.
  - destruct (PyStr.mem c chars).
    + now exists (String c s).
    + exists s. reflexivity.
  - exists rest. cbn [String.append] in IH |- *. now f_equal.
Qed.

Lemma rstrip_twice (s chars : string) :
  PyStr.rstrip (PyStr.rstrip s chars) chars = PyStr.rstrip s chars.
Proof.
  induction s as [|c s IH]; [reflexivity|].
  cbn [PyStr.rstrip]. destruct (PyStr.rstrip s chars) as [|d r] eqn:E.
  - destruct (PyStr.mem c chars) eqn:M; [reflexivity|].
    cbn [PyStr.rstrip]. now rewrite M.
  - change (String c (String d r)) with (String c "" ++ String d r).
    rewrite rstrip_app_kept; rewrite IH; [reflexivity | discriminate].
Qed.

(** X9.  Whenever the page has a heading, the extracted name is a leading
    part of the heading's text and does not end in a space: characters are
    only ever taken from the end. *)
Theorem parse_h1_name_leads_heading (soup h1 : Node) :
  Bs4.find (Bs4.named "h1") soup = Some h1 ->
  (exists rest, Bs4.get_text h1 = snd (parse_h1 soup) ++ rest)
  /\ PyStr.rstrip (snd (parse_h1 soup)) " " = snd (parse_h1 soup).
Proof.
  intros Hh1. unfold parse_h1. rewrite Hh1.
  cbn [Bs4.find_on Bs4.text_of rbind try_default snd].
  set (ty := try_default _ "Error").
  split; [|apply rstrip_twice].
  destruct (rstrip_prefix (Bs4.get_text h1) ty) as [r1 H1].
  destruct (rstrip_prefix (PyStr.rstrip (Bs4.get_text h1) ty) " ") as [r2 H2].
  exists (r2 ++ r1). rewrite <- append_assoc, <- H2. exact H1.
Qed.

(** X10.  A heading without a link has the type ["Error"]; its text is the
    name in full when it does not end in a space or in one of the letters
    of ["Error"]. *)
Theorem parse_h1_heading_without_link
  (soup h1 : Node) (body : string) (last : ascii) :
  Bs4.find (Bs4.named "h1") soup = Some h1 ->
  Bs4.find (Bs4.named "a") h1 = None ->
  Bs4.get_text h1 = body ++ String last "" ->
  PyStr.mem last "Error " = false ->
  parse_h1 soup = ("Error", body ++ String last "").
Proof.
  intros Hh1 Ha Htext Hlast. unfold parse_h1. rewrite Hh1.
  cbn [Bs4.find_on Bs4.text_of rbind try_default]. rewrite Ha.
  cbn [Bs4.text_of rbind try_default]. rewrite Htext.
  assert (Hkeep : forall chars, PyStr.mem last chars = false ->
                    PyStr.rstrip (body ++ String last "") chars
                    = body ++ String last "").
  { intros chars Hm.
    assert (Hl : PyStr.rstrip (String last "") chars = String last "")
      by (cbn [PyStr.rstrip]; now rewrite Hm).
    rewrite rstrip_app_kept; rewrite Hl; [reflexivity | discriminate]. }
  cbn in Hlast. repeat (apply orb_false_iff in Hlast as [? Hlast]).
  rewrite !Hkeep; [reflexivity | cbn | cbn];
    repeat (apply orb_false_iff; split); auto.
Qed.

(** X11.  When every link of the [stats] region carries in [data-tuneid]
    an integer as [str] writes it, of no more digits than [int] accepts,
    the related tunes are those integers in the order of the links; a
    region without links gives the empty list, not [None]. *)
Theorem parse_stats_ids_in_order (soup region : Node) (ids : list Z) :
  Bs4.find (Bs4.has_class "stats") soup = Some region ->
  Forall2 (fun tune i =>
             Bs4.getitem tune "data-tuneid" = Ok (PyStr.str i)
             /\ within_digit_limit (PyStr.str (Z.abs i)) = true)
          (Bs4.find_all (Bs4.named "a") region) ids ->
  parse_stats soup = Ok (Some ids).
Proof.
  intros Hregion Hlinks.
  apply (parse_stats_all_links soup region ids Hregion).
  eapply Forall2_impl; [|exact Hlinks].
  intros tune i [Hv Hlimit]. exists (PyStr.str i).
  split; [exact Hv | now apply int_str].
Qed.

Lemma descendants_app (a b : list Node) :
  Bs4.descendants (document (a ++ b))
  = (Bs4.descendants (document a) ++ Bs4.descendants (document b))%list.
Proof. unfold document. cbn [Bs4.descendants]. apply flat_map_app. Qed.

Lemma parse_tabs_count (soup : Node) :
  parse_tabs soup
  = Z.of_nat (List.length (filter is_setting (Bs4.descendants soup))).
Proof. reflexivity. Qed.

(** X12.  The tab counter counts every setting once, at any depth: the
    counts of two runs of nodes add up, a tag counts for itself, if it is a
    setting, and for what it holds, and text counts for nothing. *)
Theorem parse_tabs_counts_each_setting
  (a b : list Node) (tag : string) (classes : list string)
  (attrs : list (string * string)) (contents : list Node) (s : string) :
  parse_tabs (document (a ++ b))
  = parse_tabs (document a) + parse_tabs (document b)
  /\ parse_tabs (document [Tag tag classes attrs contents])
     = (if is_setting (Tag tag classes attrs contents) then 1 else 0)
       + parse_tabs (document contents)
  /\ parse_tabs (document [NavigableString s]) = 0.
Proof.
  rewrite !parse_tabs_count. split; [|split].
  - now rewrite descendants_app, filter_app, length_app, Nat2Z.inj_add.
  - unfold document at 1. cbn [Bs4.descendants flat_map]. rewrite app_nil_r.
    cbn [filter].
    change (Bs4.descendants (document contents))
      with (flat_map (fun c => c :: Bs4.descendants c) contents).
    destruct (is_setting (Tag tag classes attrs contents)).
    + cbn [List.length]. lia.
    + lia.
  - reflexivity.
Qed.

End Pages.

Lemma parse_h1_name_leads_heading_witness :
  (exists rest, "The Tune Reel" = "The Tune" ++ rest)
  /\ PyStr.rstrip "The Tune" " " = "The Tune".
Proof.
  exact (parse_h1_name_leads_heading doc_the_tune_reel
           (Tag "h1" [] []
              [NavigableString "The Tune ";
               Tag "a" [] [("href", "/tunes/search?type=reel")]
                 [NavigableString "Reel"]])
           eq_refl).
Defined.

Lemma parse_h1_heading_without_link_witness :
  parse_h1 doc_heading_without_link = ("Error", "Cooley's").
Proof.
  exact (parse_h1_heading_without_link doc_heading_without_link
           (Tag "h1" [] [] [NavigableString "Cooley's"])
           "Cooley'" "s" eq_refl eq_refl eq_refl eq_refl).
Defined.

Lemma parse_stats_ids_in_order_witness :
  parse_stats doc_stats_two_links = Ok (Some [2; 27]).
Proof.
  apply (parse_stats_ids_in_order doc_stats_two_links
           (Tag "div" ["stats"] []
              [Tag "a" [] [("href", "/tunes/2"); ("data-tuneid", "2")]
                 [NavigableString "Drowsy Maggie"];
               Tag "a" [] [("data-tuneid", "27"); ("href", "/tunes/27")]
                 [NavigableString "The Silver Spear"]])
           [2; 27]).
  - reflexivity.
  - repeat constructor.
Defined.

(** ** Counts read off links *)

Section LinkCounts.

Lemma get_text_single (tag : string) (classes : list string)
  (attrs : list (string * string)) (s : string) :
  Bs4.get_text (Tag tag classes attrs [NavigableString s]) = s.
Proof. cbn. apply append_nil_r. Qed.

(** X13.  The recordings count is the number at the start of the first
    link of the first [summary] of the first [details] element, as [str]
    wrote it, when it has no more digits than [int] accepts and no digit
    or comma follows it directly. *)
Theorem parse_summary_reads_count
  (soup details summary a : Node) (n : Z) (after : string) :
  Bs4.find (Bs4.named "details") soup = Some details ->
  Bs4.find (Bs4.named "summary") details = Some summary ->
  Bs4.find (Bs4.named "a") summary = Some a ->
  Bs4.get_text a = PyStr.str n ++ after ->
  0 <= n ->
  within_digit_limit (PyStr.str n) = true ->
  (exists c r, after = String c r /\ count_class c = false) \/ after = "" ->
  parse_summary soup = Some n.
Proof.
  intros Hd Hs Ha Htext Hn Hlimit Hafter. unfold parse_summary.
  rewrite Hd. cbn [rbind Bs4.find_on]. rewrite Hs.
  cbn [rbind Bs4.find_on]. rewrite Ha. cbn [rbind Bs4.text_of].
  rewrite Htext.
  change (PyStr.str n ++ after) with ("" ++ PyStr.str n ++ after).
  now rewrite (parse_count_str "" after n Hn Hlimit eq_refl Hafter).
Qed.

Lemma ci_prefix_space (lit rest : string) :
  PyStr.ci_prefix (String " " lit) rest = true ->
  exists r, rest = String " " r.
Proof.
  destruct rest as [|c r]; [discriminate|].
  cbn [PyStr.ci_prefix]. intros H. apply andb_true_iff in H as [Hc _].
  exists r. f_equal. revert Hc. clear.
  destruct c as [[] [] [] [] [] [] [] []]; try reflexivity; discriminate.
Qed.


Lemma filter_none {A : Type} (p : A -> bool) (l : list A) :
  List.existsb p l = false -> filter p l = [].
Proof.
  induction l as [|x l IH]; [reflexivity|].
  cbn. intros H. apply orb_false_iff in H as [-> Hl]. auto.
Qed.


End LinkCounts.

Lemma parse_summary_reads_count_witness :
  parse_summary (doc_recordings 1234) = Some 1234.
Proof.
  apply (parse_summary_reads_count (doc_recordings 1234)
           (Tag "details" [] []
              [Tag "summary" [] []
                 [Tag "a" [] [("href", "/tunes/1/recordings")]
                    [NavigableString (PyStr.str 1234 ++ " recordings")]]])
           (Tag "summary" [] []
              [Tag "a" [] [("href", "/tunes/1/recordings")]
                 [NavigableString (PyStr.str 1234 ++ " recordings")]])
           (Tag "a" [] [("href", "/tunes/1/recordings")]
              [NavigableString (PyStr.str 1234 ++ " recordings")])
           1234 " recordings").
  - reflexivity.
  - reflexivity.
  - reflexivity.
  - reflexivity.
  - lia.
  - reflexivity.
  - left. exists " "%char, "recordings". split; reflexivity.
Defined.


(** ** Runs of the batch driver *)

Section Runs.

Variable env : Env.

Lemma subseq_nil (l : list Z) : subseq [] l.
Proof. destruct l; exact I || reflexivity. Qed.

Lemma subseq_skip (s l : list Z) (y : Z) : subseq s l -> subseq s (y :: l).
Proof. intros H. destruct s as [|x s]; [exact I | now right]. Qed.

Lemma subseq_In (s l : list Z) : subseq s l -> forall x, In x s -> In x l.
Proof.
  revert s. induction l as [|y l IH]; intros s H x Hx.
  - cbn in H. subst s. destruct Hx.
  - destruct s as [|z s]; [destruct Hx|].
    cbn in H. destruct H as [[-> H] | H].
    + destruct Hx as [-> | Hx]; [now left | right; eauto].
    + right. eauto.
Qed.

Lemma subseq_sorted (s l : list Z) :
  subseq s l -> StronglySorted Z.lt l -> StronglySorted Z.lt s.
Proof.
  revert s. induction l as [|y l IH]; intros s H Hl.
  - cbn in H. subst s. constructor.
  - apply StronglySorted_inv in Hl as [Hl Hy].
    destruct s as [|z s]; [constructor|].
    cbn in H. destruct H as [[-> H] | H]; [|now apply IH].
    constructor; [now apply IH|].
    apply Forall_forall. intros x Hx.
    rewrite Forall_forall in Hy. apply Hy. now apply (subseq_In s l).
Qed.

Lemma range_sorted (a b : Z) : StronglySorted Z.lt (range a b).
Proof.
  unfold range. generalize (Z.to_nat (b - a)) as n. intros n.
  generalize 0%nat as k. induction n as [|n IH]; intros k; cbn [seq map].
  - constructor.
  - constructor; [apply IH|].
    apply Forall_forall. intros x Hx. apply in_map_iff in Hx as (i & <- & Hi).
    apply in_seq in Hi. lia.
Qed.

(** What a run of the loop requests and in which order it appends. *)
Lemma for_each_trace (nums : list Z) (tune_list : nat) :
  forall (w : World) (items : list TuneRecord) (r : result unit) (w' : World),
    nth_error (heap w) tune_list = Some (PyList items) ->
    for_each env nums tune_list w = (r, w') ->
    exists new more,
      heap w' = set_nth (heap w) tune_list (PyList (items ++ new))
      /\ net w' = (net w ++ more)%list
      /\ subseq (map id new) nums
      /\ (List.length more <= 2 * List.length nums)%nat
      /\ Forall (fun url => In url (map url_of nums)) more
      /\ match r with
         | Ok _ => (List.length nums <= List.length more)%nat
         | Raise _ => True
         end.
Proof.
  induction nums as [|num rest IH]; intros w items r w' Hlist Hrun.
  - cbn in Hrun. injection Hrun as <- <-.
    exists [], []. rewrite !app_nil_r.
    repeat split; auto. now rewrite set_nth_same.
  - assert (Hreq : exists m1,
               snd (get_soup env num (net w)) = (net w ++ m1)%list
               /\ (1 <= List.length m1 <= 2)%nat
               /\ Forall (fun url => url = url_of num) m1).
    { destruct (get_soup_requests env num (net w)) as [H | H]; rewrite H.
      - exists [url_of num]. repeat split; cbn; auto.
      - exists [url_of num; url_of num]. repeat split; cbn; auto. }
    destruct Hreq as (m1 & Hm1 & Hlen1 & Hall1).
    assert (Hin1 : Forall (fun url => In url (map url_of (num :: rest))) m1).
    { eapply Forall_impl; [|exact Hall1]. intros u ->. now left. }
    destruct (get_soup env num (net w)) as [[soup|e] log'] eqn:Hget;
      cbn [snd fst] in Hm1.
    + destruct (strain_soup soup num) as [t|e] eqn:Hstrain.
      * rewrite (for_each_append env _ _ _ _ _ _ _ _ Hget Hstrain Hlist) in Hrun.
        apply IH with (items := (items ++ [t])%list) in Hrun;
          [|cbn [heap]; now apply nth_error_set_nth with (y := PyList items)].
        destruct Hrun as (new & more & Hheap & Hnet & Hsub & Hlen & Hurls & Hr).
        cbn [heap out net] in Hheap, Hnet.
        exists (t :: new), (m1 ++ more)%list.
        rewrite Hheap, set_nth_twice, <- app_assoc.
        repeat split; auto.
        -- rewrite Hnet, Hm1. now rewrite <- app_assoc.
        -- cbn [map subseq]. left. split; [|exact Hsub].
           now apply strain_soup_id with (soup := soup).
        -- rewrite length_app. cbn [List.length]. lia.
        -- apply Forall_app. split; [exact Hin1|].
           eapply Forall_impl; [|exact Hurls]. intros u Hu. now right.
        -- destruct r; [|exact I]. rewrite length_app. cbn [List.length]. lia.
      * rewrite (for_each_extraction_raises env _ _ _ _ _ _ _ Hget Hstrain)
          in Hrun.
        injection Hrun as <- <-. cbn [heap out net].
        exists [], m1. rewrite app_nil_r.
        repeat split; auto;
          [now rewrite set_nth_same | cbn [List.length]; lia].
    + destruct (exn_is_HTTPError e) as [-> | He].
      * rewrite (for_each_skip env _ _ _ _ _ Hget) in Hrun.
        apply IH with (items := items) in Hrun; [|exact Hlist].
        destruct Hrun as (new & more & Hheap & Hnet & Hsub & Hlen & Hurls & Hr).
        cbn [heap out net] in Hheap, Hnet.
        exists new, (m1 ++ more)%list.
        repeat split; auto.
        -- rewrite Hnet, Hm1. now rewrite <- app_assoc.
        -- now apply subseq_skip.
        -- rewrite length_app. cbn [List.length]. lia.
        -- apply Forall_app. split; [exact Hin1|].
           eapply Forall_impl; [|exact Hurls]. intros u Hu. now right.
        -- destruct r; [|exact I]. rewrite length_app. cbn [List.length]. lia.
      * rewrite (for_each_fetch_raises env _ _ _ _ _ _ Hget He) in Hrun.
        injection Hrun as <- <-. cbn [heap out net].
        exists [], m1. rewrite app_nil_r.
        repeat split; auto;
          [now rewrite set_nth_same | cbn [List.length]; lia].
Qed.

(** The list object a call works on, and the world its loop starts in. *)
Lemma get_session_tunes_start (pages start : Z) (library : option nat)
  (w : World) (ref : nat) (w' : World) :
  get_session_tunes env pages start library w = (Ok ref, w') ->
  exists w0 w1 items,
    nth_error (heap w0) ref = Some (PyList (initial_records library w))
    /\ net w0 = net w /\ out w0 = out w
    /\ (library = None -> heap w0 = (heap w ++ [PyList []])%list)
    /\ (library <> None -> heap w0 = heap w)
    /\ for_each env (range start (start + pages)) ref w0 = (Ok tt, w1)
    /\ nth_error (heap w1) ref = Some (PyList items)
    /\ w' = {| net := net w1;
               out := out w1 ++ [report (Z.of_nat (List.length items)) start
                                        (start + pages - 1)];
               heap := heap w1 |}.
Proof.
  intros Hcall.
  assert (Hbody : exists tune_list w0,
             nth_error (heap w0) tune_list
             = Some (PyList (initial_records library w))
             /\ net w0 = net w /\ out w0 = out w
             /\ (library = None -> heap w0 = (heap w ++ [PyList []])%list)
             /\ (library <> None -> heap w0 = heap w)
             /\ get_session_tunes env pages start library w
                = match for_each env (range start (start + pages)) tune_list w0 with
                  | (Ok _, w1) =>
                      match nth_error (heap w1) tune_list with
                      | Some (PyList items) =>
                          (Ok tune_list,
                           {| net := net w1;
                              out := out w1
                                     ++ [report (Z.of_nat (List.length items))
                                                start (start + pages - 1)];
                              heap := heap w1 |})
                      | _ => (Raise TypeError, w1)
                      end
                  | (Raise e, w1) => (Raise e, w1)
                  end).
  { destruct library as [lref|].
    - cbn [initial_records].
      destruct (nth_error (heap w) lref) as [[items|ty]|] eqn:Hobj.
      + exists lref, w. repeat split; auto; [congruence|].
        apply get_session_tunes_body. right. eauto.
      + rewrite (get_session_tunes_not_list env pages start lref w ty Hobj)
          in Hcall. discriminate.
      + exfalso. revert Hcall. unfold get_session_tunes.
        unfold bind at 1. unfold bind at 1.
        unfold try_, bind, type_is_list. rewrite Hobj. discriminate.
    - exists (List.length (heap w)),
        {| net := net w; out := out w; heap := heap w ++ [PyList []] |}.
      cbn [initial_records heap out net].
      repeat split; auto using nth_error_last; [congruence|].
      apply get_session_tunes_body. left. auto. }
  destruct Hbody as (tune_list & w0 & Hlist & Hnet0 & Hout0 & Hnone & Hsome
                     & Hbody).
  rewrite Hbody in Hcall.
  destruct (for_each env (range start (start + pages)) tune_list w0)
    as [[[]|e] w1] eqn:Hrun; [|discriminate].
  destruct (nth_error (heap w1) tune_list) as [[items|ty]|] eqn:Hfinal;
    try discriminate.
  injection Hcall as <- <-.
  exists w0, w1, items. repeat split; auto.
Qed.

(** X15.  The records a call adds stand in the order of the identifiers of
    the batch, at most one for each: their identifiers are the identifiers
    of the batch with some left out, hence strictly increasing. *)
Theorem get_session_tunes_keeps_order
  (pages start : Z) (library : option nat) (w : World) (ref : nat)
  (w' : World) :
  get_session_tunes env pages start library w = (Ok ref, w') ->
  exists new,
    nth_error (heap w') ref = Some (PyList (initial_records library w ++ new))
    /\ subseq (map id new) (range start (start + pages))
    /\ StronglySorted Z.lt (map id new).
Proof.
  intros Hcall.
  destruct (get_session_tunes_start _ _ _ _ _ _ Hcall)
    as (w0 & w1 & items & Hlist & _ & _ & _ & _ & Hrun & Hfinal & ->).
  destruct (for_each_trace _ _ _ _ _ _ Hlist Hrun)
    as (new & more & Hheap & _ & Hsub & _).
  exists new. cbn [heap]. repeat split; auto.
  - rewrite Hheap. eapply nth_error_set_nth. exact Hlist.
  - exact (subseq_sorted _ _ Hsub (range_sorted _ _)).
Qed.

(** X16.  A call that returns has requested pages of tunes of its batch
    only, at least one request and at most two for each identifier of the
    batch. *)
Theorem get_session_tunes_request_bounds
  (pages start : Z) (library : option nat) (w : World) (ref : nat)
  (w' : World) :
  get_session_tunes env pages start library w = (Ok ref, w') ->
  exists more,
    net w' = (net w ++ more)%list
    /\ Forall (fun url => In url (map url_of (range start (start + pages))))
              more
    /\ (Z.to_nat pages <= List.length more <= 2 * Z.to_nat pages)%nat.
Proof.
  intros Hcall.
  destruct (get_session_tunes_start _ _ _ _ _ _ Hcall)
    as (w0 & w1 & items & Hlist & Hnet0 & _ & _ & _ & Hrun & Hfinal & ->).
  destruct (for_each_trace _ _ _ _ _ _ Hlist Hrun)
    as (new & more & _ & Hnet & _ & Hmax & Hurls & Hmin).
  assert (Hlen : List.length (range start (start + pages)) = Z.to_nat pages).
  { unfold range. rewrite length_map, length_seq. f_equal. lia. }
  rewrite Hlen in Hmax, Hmin.
  exists more. cbn [net]. rewrite Hnet, Hnet0. repeat split; auto; lia.
Qed.

(** X17.  A call without [library] makes a list of its own: whether it
    returns or raises, every object that existed before is as it was, and
    the records of the call are in one new list after them. *)
Theorem get_session_tunes_fresh_list (pages start : Z) (w : World) :
  exists new,
    heap (snd (get_session_tunes env pages start None w))
    = (heap w ++ [PyList new])%list.
Proof.
  rewrite (get_session_tunes_body env pages start None w
             {| net := net w; out := out w; heap := heap w ++ [PyList []] |}
             (List.length (heap w)))
    by (left; auto).
  destruct (for_each env (range start (start + pages)) (List.length (heap w))
              {| net := net w; out := out w; heap := heap w ++ [PyList []] |})
    as [r w1] eqn:Hrun.
  assert (Hlist : nth_error
                    (heap {| net := net w; out := out w;
                             heap := heap w ++ [PyList []] |})
                    (List.length (heap w)) = Some (PyList []))
    by apply nth_error_last.
  destruct (for_each_trace _ _ _ _ _ _ Hlist Hrun)
    as (new & more & Hheap & _).
  cbn [heap app] in Hheap. rewrite set_nth_last in Hheap.
  exists new. destruct r as [u|e]; [|exact Hheap].
  destruct (nth_error (heap w1) (List.length (heap w))) as [[its|ty]|];
    exact Hheap.
Qed.

(** X18.  With no page to fetch ([pages] zero or negative) a call without
    [library] requests nothing, returns a new empty list and reports the
    count 0. *)
Theorem get_session_tunes_no_pages (pages start : Z) (w : World) :
  pages <= 0 ->
  get_session_tunes env pages start None w
  = (Ok (List.length (heap w)),
     {| net := net w;
        out := out w ++ [report 0 start (start + pages - 1)];
        heap := heap w ++ [PyList []] |}).
Proof.
  intros Hpages.
  rewrite (get_session_tunes_body env pages start None w
             {| net := net w; out := out w; heap := heap w ++ [PyList []] |}
             (List.length (heap w)))
    by (left; auto).
  unfold range. replace (Z.to_nat (start + pages - start)) with 0%nat by lia.
  cbn [seq map for_each ret heap net out]. now rewrite nth_error_last.
Qed.

Lemma get_session_tunes_nothing_fetched (pages start : Z) (w : World) :
  (forall num log, fst (get_soup env num log) = Raise HTTPError) ->
  exists log',
    get_session_tunes env pages start None w
    = (Ok (List.length (heap w)),
       {| net := log';
          out := out w ++ [report 0 start (start + pages - 1)];
          heap := heap w ++ [PyList []] |}).
Proof.
  intros Hfail.
  rewrite (get_session_tunes_body env pages start None w
             {| net := net w; out := out w; heap := heap w ++ [PyList []] |}
             (List.length (heap w)))
    by (left; auto).
  assert (Hloop : forall nums log,
             exists log',
               for_each env nums (List.length (heap w))
                        {| net := log; out := out w;
                           heap := heap w ++ [PyList []] |}
               = (Ok tt, {| net := log'; out := out w;
                            heap := heap w ++ [PyList []] |})).
  { induction nums as [|num rest IH]; intros log.
    - exists log. reflexivity.
    - pose proof (Hfail num log) as Hnum.
      destruct (get_soup env num log) as [r log1] eqn:Hget.
      cbn [fst] in Hnum. subst r.
      destruct (IH log1) as [log' Hrest]. exists log'.
      now rewrite (for_each_skip env num rest _
                     {| net := log; out := out w;
                        heap := heap w ++ [PyList []] |} log1 Hget). }
  destruct (Hloop (range start (start + pages)) (net w)) as [log' Hrun].
  exists log'. rewrite Hrun. cbn [heap net out]. now rewrite nth_error_last.
Qed.

(** X19.  When the fetch of every tune fails, a call without [library]
    still returns: a new empty list, and the count 0 in its report. *)
Theorem get_session_tunes_all_fetches_fail (pages start : Z) (w : World) :
  (forall num log, fst (get_soup env num log) = Raise HTTPError) ->
  exists log',
    get_session_tunes env pages start None w
    = (Ok (List.length (heap w)),
       {| net := log';
          out := out w ++ [report 0 start (start + pages - 1)];
          heap := heap w ++ [PyList []] |}).
Proof. apply get_session_tunes_nothing_fetched. Qed.

(** One round of the loop, case by case. *)
Lemma for_each_cons (num : Z) (rest : list Z) (tune_list : nat) (w : World) :
  for_each env (num :: rest) tune_list w
  = match get_soup env num (net w) with
    | (Ok soup, log') =>
        match strain_soup soup num with
        | Ok t =>
            match nth_error (heap w) tune_list with
            | Some (PyList items) =>
                for_each env rest tune_list
                         {| net := log'; out := out w;
                            heap := set_nth (heap w) tune_list
                                            (PyList (items ++ [t])) |}
            | _ => (Raise AttributeError,
                    {| net := log'; out := out w; heap := heap w |})
            end
        | Raise e => (Raise e, {| net := log'; out := out w; heap := heap w |})
        end
    | (Raise HTTPError, log') =>
        for_each env rest tune_list
                 {| net := log'; out := out w; heap := heap w |}
    | (Raise e, log') =>
        (Raise e, {| net := log'; out := out w; heap := heap w |})
    end.
Proof.
  cbn [for_each]. unfold bind, try_, fetch, lift, append, raise.
  destruct (get_soup env num (net w)) as [[soup|e] log'].
  - destruct (strain_soup soup num) as [t|e]; [|reflexivity].
    cbn [heap net out].
    destruct (nth_error (heap w) tune_list) as [[items|ty]|]; reflexivity.
  - destruct e; reflexivity.
Qed.

(** The loop over two runs of identifiers is the loop over the first
    followed, unless it raised, by the loop over the second. *)
Lemma for_each_app (l1 l2 : list Z) (tune_list : nat) :
  forall w,
    for_each env (l1 ++ l2) tune_list w
    = match for_each env l1 tune_list w with
      | (Ok _, w1) => for_each env l2 tune_list w1
      | (Raise e, w1) => (Raise e, w1)
      end.
Proof.
  induction l1 as [|num rest IH]; intros w; [reflexivity|].
  change ((num :: rest) ++ l2)%list with (num :: (rest ++ l2))%list.
  rewrite !for_each_cons.
  destruct (get_soup env num (net w)) as [[soup|e] log'].
  - destruct (strain_soup soup num) as [t|e]; [|reflexivity].
    destruct (nth_error (heap w) tune_list) as [[items|ty]|];
      try reflexivity.
    apply IH.
  - destruct e; try reflexivity. apply IH.
Qed.

(** The loop prints nothing and does not look at what was printed. *)
Lemma for_each_out (nums : list Z) (tune_list : nat) :
  forall log printed objects r w',
    for_each env nums tune_list
             {| net := log; out := printed; heap := objects |} = (r, w') ->
    forall printed',
      for_each env nums tune_list
               {| net := log; out := printed'; heap := objects |}
      = (r, {| net := net w'; out := printed'; heap := heap w' |}).
Proof.
  induction nums as [|num rest IH]; intros log printed objects r w' Hrun o.
  - cbn in Hrun |- *. now injection Hrun as <- <-.
  - revert Hrun. rewrite !for_each_cons. cbn [net out heap].
    destruct (get_soup env num log) as [[soup|e] log'].
    + destruct (strain_soup soup num) as [t|e];
        [|now intros [= <- <-]].
      destruct (nth_error objects tune_list) as [[items|ty]|];
        try (now intros [= <- <-]).
      intros Hrun. now apply IH with (printed := printed).
    + destruct e; try (now intros [= <- <-]).
      intros Hrun. now apply IH with (printed := printed).
Qed.

Lemma map_seq_from (f : nat -> Z) (a n : nat) :
  map f (seq a n) = map (fun i => f (a + i)%nat) (seq 0 n).
Proof.
  revert f. induction a as [|a IH]; intros f; [reflexivity|].
  rewrite <- seq_shift, map_map, IH. reflexivity.
Qed.

Lemma range_app (s p q : Z) :
  0 <= p -> 0 <= q ->
  range s (s + (p + q))
  = (range s (s + p) ++ range (s + p) (s + p + q))%list.
Proof.
  intros Hp Hq. unfold range.
  replace (Z.to_nat (s + (p + q) - s)) with (Z.to_nat p + Z.to_nat q)%nat
    by lia.
  replace (Z.to_nat (s + p - s)) with (Z.to_nat p) by lia.
  replace (Z.to_nat (s + p + q - (s + p))) with (Z.to_nat q) by lia.
  rewrite seq_app, map_app. f_equal.
  rewrite map_seq_from. apply map_ext. intros i. lia.
Qed.

(** X20.  Two calls in a row that extend the same list, the second over the
    identifiers that follow those of the first, leave the list and the
    requests as one call over both runs of identifiers does. *)
Theorem get_session_tunes_batches_compose
  (p q s : Z) (ref : nat) (w w1 w2 : World) :
  0 <= p -> 0 <= q ->
  get_session_tunes env p s (Some ref) w = (Ok ref, w1) ->
  get_session_tunes env q (s + p) (Some ref) w1 = (Ok ref, w2) ->
  exists w',
    get_session_tunes env (p + q) s (Some ref) w = (Ok ref, w')
    /\ heap w' = heap w2
    /\ net w' = net w2.
Proof.
  intros Hp Hq Hcall1 Hcall2.
  assert (Hlist : exists items, nth_error (heap w) ref = Some (PyList items)).
  { destruct (get_session_tunes_start _ _ _ _ _ _ Hcall1)
      as (w0 & _ & _ & Hl & _ & _ & _ & Hsame & _).
    rewrite Hsame in Hl by discriminate. eauto. }
  rewrite (get_session_tunes_body env p s (Some ref) w w ref) in Hcall1
    by (right; auto).
  destruct (for_each env (range s (s + p)) ref w) as [[u|e] wa] eqn:Ha;
    [|discriminate].
  destruct (nth_error (heap wa) ref) as [[ia|ty]|] eqn:Hia; try discriminate.
  injection Hcall1 as <-.
  rewrite (get_session_tunes_body env q (s + p) (Some ref) _ _ ref) in Hcall2
    by (right; split; [reflexivity | split; [reflexivity | cbn [heap]; eauto]]).
  destruct (for_each env (range (s + p) (s + p + q)) ref _)
    as [[u'|e] wb] eqn:Hb; [|discriminate].
  destruct (nth_error (heap wb) ref) as [[ib|ty]|] eqn:Hib; try discriminate.
  injection Hcall2 as <-.
  apply for_each_out with (printed' := out wa) in Hb.
  rewrite (get_session_tunes_body env (p + q) s (Some ref) w w ref)
    by (right; auto).
  rewrite range_app, for_each_app, Ha by assumption.
  destruct wa as [neta outa heapa]. cbn [net out heap] in *.
  rewrite Hb. cbn [heap]. rewrite Hib.
  eexists. split; [reflexivity|]. split; reflexivity.
Qed.

End Runs.

Lemma get_session_tunes_keeps_order_witness :
  exists new,
    nth_error [PyList [the_tune_reel 40; the_tune_reel 1; the_tune_reel 3]]
              0%nat
    = Some (PyList ([the_tune_reel 40] ++ new))
    /\ subseq (map id new) [1; 2; 3]
    /\ StronglySorted Z.lt (map id new).
Proof.
  exact (get_session_tunes_keeps_order
           (env_serving 2 doc_the_tune_reel) 3 1 (Some 0%nat)
           world_with_library 0%nat
           {| net := [url_of 1; url_of 2; url_of 3];
              out := ["Obtained data for 3 tunes (IDs 1-3)."];
              heap := [PyList [the_tune_reel 40; the_tune_reel 1;
                               the_tune_reel 3]] |}
           eq_refl).
Defined.

Lemma get_session_tunes_request_bounds_witness :
  exists more,
    [url_of 1; url_of 2; url_of 3] = ([] ++ more)%list
    /\ Forall (fun url => In url (map url_of [1; 2; 3])) more
    /\ (3 <= List.length more <= 6)%nat.
Proof.
  exact (get_session_tunes_request_bounds
           (env_serving 2 doc_the_tune_reel) 3 1 (Some 0%nat)
           world_with_library 0%nat
           {| net := [url_of 1; url_of 2; url_of 3];
              out := ["Obtained data for 3 tunes (IDs 1-3)."];
              heap := [PyList [the_tune_reel 40; the_tune_reel 1;
                               the_tune_reel 3]] |}
           eq_refl).
Defined.

Lemma get_session_tunes_no_pages_witness :
  get_session_tunes (env_serving 2 doc_the_tune_reel) 0 1 None empty_world
  = (Ok 0%nat,
     {| net := []; out := ["Obtained data for 0 tunes (IDs 1-0)."];
        heap := [PyList []] |}).
Proof.
  apply (get_session_tunes_no_pages (env_serving 2 doc_the_tune_reel) 0 1
           empty_world).
  lia.
Defined.

Lemma get_session_tunes_all_fetches_fail_witness :
  exists log',
    get_session_tunes env_offline 2 7 None empty_world
    = (Ok 0%nat,
       {| net := log'; out := ["Obtained data for 0 tunes (IDs 7-8)."];
          heap := [PyList []] |}).
Proof.
  exact (get_session_tunes_all_fetches_fail env_offline 2 7 empty_world
           (fun num log => eq_refl)).
Defined.

Lemma get_session_tunes_batches_compose_witness :
  exists w',
    get_session_tunes (env_serving 2 doc_the_tune_reel) (1 + 2) 1
                      (Some 0%nat) world_with_library
    = (Ok 0%nat, w')
    /\ heap w' = [PyList [the_tune_reel 40; the_tune_reel 1; the_tune_reel 3]]
    /\ net w' = [url_of 1; url_of 2; url_of 3].
Proof.
  apply (get_session_tunes_batches_compose
           (env_serving 2 doc_the_tune_reel) 1 2 1 0%nat world_with_library
           {| net := [url_of 1];
              out := ["Obtained data for 2 tunes (IDs 1-1)."];
              heap := [PyList [the_tune_reel 40; the_tune_reel 1]] |}
           {| net := [url_of 1; url_of 2; url_of 3];
              out := ["Obtained data for 2 tunes (IDs 1-1).";
                      "Obtained data for 3 tunes (IDs 2-3)."];
              heap := [PyList [the_tune_reel 40; the_tune_reel 1;
                               the_tune_reel 3]] |}).
  - lia.
  - lia.
  - reflexivity.
  - reflexivity.
Defined.

(** ** The rounds of [main] *)

Section Rounds.

Variable env : Env.



End Rounds.

Section Batches.

Lemma attempted_steps (a step : Z) (n : nat) :
  0 < step ->
  attempted (map (fun i => a + Z.of_nat i * step) (seq 0 n)) step
  = range a (a + step * Z.of_nat n).
Proof.
  intros Hstep. unfold attempted. induction n as [|n IH].
  - unfold range. replace (a + step * Z.of_nat 0 - a) with 0 by lia.
    reflexivity.
  - rewrite seq_S, map_app, flat_map_app, IH. cbn [map flat_map Nat.add].
    rewrite app_nil_r.
    replace (a + step * Z.of_nat (S n))
      with (a + (step * Z.of_nat n + step)) by lia.
    rewrite (range_app a (step * Z.of_nat n) step) by lia.
    f_equal. f_equal; lia.
Qed.

(** X23.  For a positive batch size the batches of [main] follow one
    another without gap or overlap: the identifiers attempted over all of
    them are the identifiers from the starting point on, each once and in
    order, up to the first multiple of the batch size that reaches the
    stop. *)
Theorem batches_cover_contiguously (a stop step : Z) :
  0 < step ->
  exists bs,
    range_step a stop step = Ok bs
    /\ attempted bs step = range a (a + step * Z.of_nat (List.length bs))
    /\ Z.max a stop <= a + step * Z.of_nat (List.length bs)
       < Z.max a stop + step.
Proof.
  intros Hstep. unfold range_step.
  assert ((step =? 0) = false) as -> by lia.
  assert ((0 <? step) = true) as -> by lia.
  set (n := Z.to_nat ((stop - a + step - 1) / step)).
  eexists. split; [reflexivity|].
  rewrite length_map, length_seq. split; [now apply attempted_steps|].
  pose proof (Z.mul_div_le (stop - a + step - 1) step Hstep) as Hlo.
  pose proof (Z.mul_succ_div_gt (stop - a + step - 1) step Hstep) as Hhi.
  unfold n. clear n.
  destruct (Z.le_gt_cases 0 ((stop - a + step - 1) / step)) as [Hd | Hd].
  - rewrite Z2Nat.id by exact Hd. nia.
  - replace (Z.to_nat ((stop - a + step - 1) / step)) with 0%nat by lia.
    nia.
Qed.

End Batches.



(** The batches of [main]: 96 of them, which attempt the identifiers from
    1 to 24000. *)
Lemma batches_cover_contiguously_witness :
  exists bs,
    batches = Ok bs
    /\ attempted bs batch_size
       = range starting_point
               (starting_point + batch_size * Z.of_nat (List.length bs))
    /\ Z.max starting_point number_tunes
       <= starting_point + batch_size * Z.of_nat (List.length bs)
       < Z.max starting_point number_tunes + batch_size.
Proof.
  exact (batches_cover_contiguously starting_point number_tunes batch_size
           eq_refl).
Defined.

Example batches_of_main :
  exists bs,
    batches = Ok bs /\ List.length bs = 96%nat
    /\ hd_error bs = Some 1 /\ last bs 0 = 23751
    /\ starting_point + batch_size * Z.of_nat (List.length bs) = 24001.
Proof. eexists. repeat split. Qed.

(** ** Tune sets and tune books *)

Section SetsAndBooks.

Lemma ci_prefix_app (lit lead x : string) :
  PyStr.ci_prefix lit lead = true -> PyStr.ci_prefix lit (lead ++ x) = true.
Proof.
  revert lead. induction lit as [|a lit IH]; intros lead; [reflexivity|].
  destruct lead as [|b lead]; [discriminate|].
  cbn [PyStr.ci_prefix String.append]. intros H.
  apply andb_true_iff in H as [-> H]. now apply IH.
Qed.

Lemma drop_length_app (lead x : string) :
  PyStr.drop (String.length lead) (lead ++ x) = x.
Proof. induction lead as [|c lead IH]; [reflexivity | exact IH]. Qed.

Lemma take_while_run (p : ascii -> bool) (run rest : string) :
  PyStr.forallb p run = true ->
  PyStr.take_while p rest = "" ->
  PyStr.take_while p (run ++ rest) = run.
Proof.
  intros Hrun Hrest. induction run as [|c run IH]; [exact Hrest|].
  simpl in Hrun |- *. apply andb_true_iff in Hrun as [-> Hrun].
  now rewrite IH.
Qed.

Lemma search_tune_book_later (intro x : string) :
  tune_book_at x = true -> search_tune_book (intro ++ x) = true.
Proof.
  intros Hx. induction intro as [|c intro IH].
  - cbn [String.append]. destruct x; cbn [search_tune_book];
      now rewrite Hx.
  - cbn [String.append search_tune_book]. rewrite IH. apply orb_true_r.
Qed.

Lemma existsb_app_string p (a b : string) :
  PyStr.existsb p (a ++ b) = PyStr.existsb p a || PyStr.existsb p b.
Proof.
  induction a as [|x a IH]; simpl; [reflexivity|].
  rewrite IH. now rewrite orb_assoc.
Qed.

Lemma find_first (crit : Node -> bool) (soup a : Node)
  (before after : list Node) :
  Bs4.descendants soup = (before ++ a :: after)%list ->
  List.existsb crit before = false ->
  crit a = true ->
  Bs4.find crit soup = Some a.
Proof.
  intros Hdesc Hbefore Ha. unfold Bs4.find, Bs4.find_all.
  rewrite Hdesc, filter_app, (filter_none _ _ Hbefore).
  cbn [app filter]. now rewrite Ha.
Qed.


(** X25.  The tune-books count is read off the first paragraph, in
    document order, that holds a single text in which
    ["has been added to "], in any mix of upper and lower case, is followed
    by digits or commas and [" tunebooks"]; when no digit or comma stands
    before the count and the count is as [str] wrote it, in no more
    digits than [int] accepts, that is the count. *)
Theorem parse_paragraphs_reads_tune_books
  (soup : Node) (before after : list Node) (classes : list string)
  (attrs : list (string * string)) (n : Z) (intro lead rest : string) :
  Bs4.descendants soup
  = (before
     ++ Tag "p" classes attrs
            [NavigableString (intro ++ lead ++ PyStr.str n ++ rest)]
     :: after)%list ->
  List.existsb is_tune_book_paragraph before = false ->
  PyStr.ci_prefix "has been added to " lead = true ->
  String.length lead = String.length "has been added to " ->
  PyStr.existsb count_class (intro ++ lead) = false ->
  PyStr.ci_prefix " tunebooks" rest = true ->
  0 <= n ->
  within_digit_limit (PyStr.str n) = true ->
  books_of soup = Some n.
Proof.
  intros Hdesc Hbefore Hlead Hlen Hpre Hrest Hn Hlimit.
  destruct (str_nonneg n Hn) as (Hd & Hne & _).
  destruct (ci_prefix_space _ _ Hrest) as [r Hr].
  assert (Hstop : PyStr.take_while count_class rest = "")
    by (rewrite Hr; reflexivity).
  assert (Hrun : PyStr.take_while count_class (PyStr.str n ++ rest)
                 = PyStr.str n).
  { apply take_while_run; [|exact Hstop].
    exact (forallb_weaken _ _ _ digit_in_class Hd). }
  assert (Hat : tune_book_at (lead ++ PyStr.str n ++ rest) = true).
  { unfold tune_book_at. rewrite (ci_prefix_app _ _ _ Hlead).
    rewrite <- Hlen, drop_length_app, Hrun, drop_length_app, Hrest.
    destruct (PyStr.str n); [congruence | reflexivity]. }
  assert (Hfind : Bs4.find is_tune_book_paragraph soup
                  = Some (Tag "p" classes attrs
                              [NavigableString
                                 (intro ++ lead ++ PyStr.str n ++ rest)])).
  { apply (find_first _ _ _ before after Hdesc Hbefore).
    unfold is_tune_book_paragraph, Bs4.string_matches.
    cbn [Bs4.named Bs4.string_ andb String.eqb Ascii.eqb Bool.eqb].
    now apply search_tune_book_later. }
  unfold books_of, parse_paragraphs. cbn [fst snd].
  change (fun n0 : Node =>
            Bs4.named "p" n0 && Bs4.string_matches search_tune_book n0)
    with is_tune_book_paragraph.
  rewrite Hfind. cbn [Bs4.text_of rbind]. rewrite get_text_single.
  rewrite <- append_assoc.
  rewrite (parse_count_str (intro ++ lead) rest n Hn Hlimit Hpre); [reflexivity|].
  left. exists " "%char, r. split; [exact Hr | reflexivity].
Qed.

End SetsAndBooks.


Lemma parse_paragraphs_reads_tune_books_witness :
  books_of (doc_sets_and_books 57 431) = Some 431.
Proof.
  apply (parse_paragraphs_reads_tune_books (doc_sets_and_books 57 431)
           [Tag "p" [] []
              [Tag "a" [] [("href", "/tunes/1/sets")]
                 [NavigableString (PyStr.str 57 ++ " tune sets")]];
            Tag "a" [] [("href", "/tunes/1/sets")]
              [NavigableString (PyStr.str 57 ++ " tune sets")];
            NavigableString (PyStr.str 57 ++ " tune sets")]
           [NavigableString ("This tune " ++ "Has Been Added To "
                              ++ PyStr.str 431 ++ " tunebooks.")]
           [] [] 431 "This tune " "Has Been Added To " " tunebooks.").
  - reflexivity.
  - reflexivity.
  - reflexivity.
  - reflexivity.
  - reflexivity.
  - reflexivity.
  - lia.
  - reflexivity.
Defined.
